(** * Verification of the probe-library mesh engine

    A shallow embedding of [src/probe_library/obj_generator.py]: the
    [ProbeOBJGenerator] class (vertex and face bookkeeping, contour
    extrusion, per-contact primitives, the fallback rectangle, the OBJ
    writer) and the module-level [generate_probe_obj].

    Python objects are modelled as follows.
    - [self] is a record threaded through a state-and-exception monad: every
      method is a function from the generator before the call to either a
      returned value or a raised exception, each with the generator after.
    - Python integers are [Z]; list positions and [len] are [nat].
    - Floating point numbers are kept behind the interface [Arith] (the
      operations the code applies to them), instantiated with the kernel's
      binary64 floats.  Functions of numpy's (cos, sin, pi) are the
      interface [Trig].
    - Dictionaries of shape parameters are [gmap string F].
    - [print] calls write to the terminal only and are left out. *)

From stdpp Require Import prelude gmap strings.
From Stdlib Require Import Ascii PrimFloat FloatOps SpecFloat Uint63.
From Stdlib Require Import DecimalString DecimalPos DecimalZ QArith Qabs.

Open Scope Z_scope.

(** ** Numbers *)

(** The arithmetic the generator performs on coordinates. [lit] is a numeral
    of the source text ([2], [10], [20], [30.0]) read at the coordinate
    type; [minimum] and [maximum] are the binary operations [np.min] and
    [np.max] reduce with. *)
Class Arith (F : Type) := {
  lit : Z → F;
  fadd : F → F → F;
  fsub : F → F → F;
  fmul : F → F → F;
  fdiv : F → F → F;
  fneg : F → F;
  minimum : F → F → F;
  maximum : F → F → F;
}.

(** [np.cos], [np.sin] and [np.pi]. *)
Class Trig (F : Type) := {
  np_cos : F → F;
  np_sin : F → F;
  np_pi : F;
}.

(** The format specification [:.6f]. *)
Class Fmt (F : Type) := {
  fmt6 : F → string;
}.

(** ** Exceptions and the generator monad *)

Inductive exn := ValueError | TypeError | IndexError | OSError.

Inductive outcome (S A : Type) :=
  | Ok (a : A) (s : S)
  | Raise (e : exn) (s : S).
Arguments Ok {S A} a s.
Arguments Raise {S A} e s.

Definition M (S A : Type) : Type := S → outcome S A.

Definition ret {S A} (a : A) : M S A := λ s, Ok a s.
Definition raise {S A} (e : exn) : M S A := λ s, Raise e s.
Definition bind {S A B} (c : M S A) (k : A → M S B) : M S B :=
  λ s, match c s with
       | Ok a s' => k a s'
       | Raise e s' => Raise e s'
       end.
(** [try: c except Exception: h] *)
Definition try_except {S A} (c : M S A) (h : exn → M S A) : M S A :=
  λ s, match c s with
       | Ok a s' => Ok a s'
       | Raise e s' => h e s'
       end.

Global Instance M_ret {S} : MRet (M S) := λ A, ret.
Global Instance M_bind {S} : MBind (M S) := λ A B k c, bind c k.

Definition state_of {S A} (o : outcome S A) : S :=
  match o with Ok _ s => s | Raise _ s => s end.

(** [l[i]] for a list and a non-negative position. *)
Definition getitem {S A} (l : list A) (i : nat) : M S A :=
  match l !! i with
  | Some a => ret a
  | None => raise IndexError
  end.

(** [x, y = point] *)
Definition unpack2 {S A} (point : list A) : M S (A * A) :=
  match point with
  | [x; y] => ret (x, y)
  | _ => raise ValueError
  end.

(** [x, y, z = position] *)
Definition unpack3 {S A} (position : list A) : M S (A * A * A) :=
  match position with
  | [x; y; z] => ret (x, y, z)
  | _ => raise ValueError
  end.

(** [for x in xs: body x] *)
Fixpoint for_each {S A} (xs : list A) (body : A → M S unit) : M S unit :=
  match xs with
  | [] => ret tt
  | x :: rest => body x ;; for_each rest body
  end.

(** ** The generator *)

Section Generator.
Context {F : Type} `{!Arith F}.

Definition vertex : Type := F * F * F.

Record ProbeOBJGenerator := mkGen {
  vertices : list vertex;
  faces : list (list Z);
  vertex_count : Z;
}.

Abbreviation Gen := (M ProbeOBJGenerator).

(** [__init__] *)
Definition new_generator : ProbeOBJGenerator := mkGen [] [] 0.

Definition reset : Gen unit :=
  λ _, Ok tt (mkGen [] [] 0).

Definition add_vertex (x y z : F) : Gen Z :=
  λ self,
    let self1 := mkGen (vertices self ++ [(x, y, z)]) (faces self)
                       (vertex_count self) in
    let self2 := mkGen (vertices self1) (faces self1)
                       (vertex_count self1 + 1) in
    Ok (vertex_count self2) self2.

Definition add_face (vertex_indices : list Z) : Gen unit :=
  λ self,
    Ok tt (mkGen (vertices self) (faces self ++ [vertex_indices])
                 (vertex_count self)).

(** The loop of [extrude_contour], with its two local lists. *)
Fixpoint extrude_loop (contour_points : list (list F)) (z_bottom z_top : F)
    (bottom_indices top_indices : list Z) : Gen (list Z * list Z) :=
  match contour_points with
  | [] => ret (bottom_indices, top_indices)
  | point :: rest =>
      '(x, y) ← unpack2 point;
      bottom_idx ← add_vertex x y z_bottom;
      top_idx ← add_vertex x y z_top;
      extrude_loop rest z_bottom z_top
        (bottom_indices ++ [bottom_idx]) (top_indices ++ [top_idx])
  end.

Definition extrude_contour (contour_points : list (list F))
    (z_bottom z_top : F) : Gen (list Z * list Z) :=
  extrude_loop contour_points z_bottom z_top [] [].

(** One iteration of the side-face loop. *)
Definition side_face (bottom_indices top_indices : list Z)
    (n_points i : nat) : Gen unit :=
  let next_i := ((i + 1) mod n_points)%nat in
  b0 ← getitem bottom_indices i;
  b1 ← getitem bottom_indices next_i;
  t1 ← getitem top_indices next_i;
  t0 ← getitem top_indices i;
  add_face [b0; b1; t1; t0].

Definition create_faces_from_contour (bottom_indices top_indices : list Z)
    : Gen unit :=
  let n_points := length bottom_indices in
  (if (3 <=? n_points)%nat then add_face (reverse bottom_indices)
   else ret tt) ;;
  (if (3 <=? n_points)%nat then add_face top_indices else ret tt) ;;
  for_each (seq 0 n_points) (side_face bottom_indices top_indices n_points).

(** *** numpy *)

(** [len(a)] where [a] may be [None]. *)
Definition py_len {S A} (a : option (list A)) : M S nat :=
  match a with
  | Some l => ret (length l)
  | None => raise TypeError
  end.

(** [np.column_stack([positions, np.zeros(len(positions))])]: one more
    column, of zeros. *)
Definition column_stack_zeros (positions : list (list F)) : list (list F) :=
  map (λ row, row ++ [lit 0]) positions.

(** [np.min(a, axis=0)] and [np.max(a, axis=0)]: the reduction of the rows
    by the elementwise binary operation. An array without rows has no
    minimum (ValueError), [None] has no axis 0 (AxisError, a ValueError). *)
Definition reduce_axis0 {S} (op : F → F → F) (a : option (list (list F)))
    : M S (list F) :=
  match a with
  | Some (row :: rows) => ret (foldl (zip_with op) row rows)
  | Some [] => raise ValueError
  | None => raise ValueError
  end.
Definition np_min_axis0 {S} := @reduce_axis0 S minimum.
Definition np_max_axis0 {S} := @reduce_axis0 S maximum.

(** [np.linspace(start, stop, num, endpoint=False)] for [start ≠ stop]:
    [arange(0, num) * step + start] with [step = (stop - start) / num]. *)
Definition linspace_open (start stop : F) (num : nat) : list F :=
  let step := fdiv (fsub stop start) (lit (Z.of_nat num)) in
  map (λ k, fadd (fmul (lit (Z.of_nat k)) step) start) (seq 0 num).

(** *** Contact primitives *)

Context `{!Trig F}.

(** The loop shared by the two contact primitives: two vertices per
    footprint point. *)
Fixpoint footprint_loop (points : list (F * F)) (z_bottom z_top : F)
    (bottom_indices top_indices : list Z) : Gen (list Z * list Z) :=
  match points with
  | [] => ret (bottom_indices, top_indices)
  | (cx, cy) :: rest =>
      bottom_idx ← add_vertex cx cy z_bottom;
      top_idx ← add_vertex cx cy z_top;
      footprint_loop rest z_bottom z_top
        (bottom_indices ++ [bottom_idx]) (top_indices ++ [top_idx])
  end.

Definition _add_circular_contact (position : list F) (radius height : F)
    (n_segments : nat) : Gen unit :=
  '(x, y, z) ← unpack3 position;
  let angles := linspace_open (lit 0) (fmul (lit 2) np_pi) n_segments in
  '(bottom_indices, top_indices) ←
    footprint_loop
      (map (λ angle, (fadd x (fmul radius (np_cos angle)),
                      fadd y (fmul radius (np_sin angle)))) angles)
      (fsub z (fdiv height (lit 2))) (fadd z (fdiv height (lit 2))) [] [];
  create_faces_from_contour bottom_indices top_indices.

Definition _add_rectangular_contact (position : list F)
    (width height thickness : F) : Gen unit :=
  '(x, y, z) ← unpack3 position;
  let corners :=
    [ (fsub x (fdiv width (lit 2)), fsub y (fdiv height (lit 2)));
      (fadd x (fdiv width (lit 2)), fsub y (fdiv height (lit 2)));
      (fadd x (fdiv width (lit 2)), fadd y (fdiv height (lit 2)));
      (fsub x (fdiv width (lit 2)), fadd y (fdiv height (lit 2))) ] in
  '(bottom_indices, top_indices) ←
    footprint_loop corners
      (fsub z (fdiv thickness (lit 2))) (fadd z (fdiv thickness (lit 2)))
      [] [];
  create_faces_from_contour bottom_indices top_indices.

(** *** Probes *)

(** Modelled from the spec: the class [Probe] is probeinterface's, not
    this repository's.  The record holds the attributes the generator
    reads (spec section 6): [None] for an attribute that is [None]
    ([probe_planar_contour], [contact_positions]) or that the object does
    not have ([contact_shapes], [contact_shape_params], [model_name],
    which the code reads through [getattr] with a default).  An array is
    the list of its rows. *)
Record Probe := mkProbe {
  probe_planar_contour : option (list (list F));
  contact_positions : option (list (list F));
  ndim : Z;
  contact_shapes : option (list string);
  contact_shape_params : option (list (gmap string F));
  model_name : option string;
}.

(** [d.get(key, default)] *)
Definition dict_get (d : gmap string F) (key : string) (dflt : F) : F :=
  default dflt (d !! key).

(** The body of the loop of [add_contact_geometry].  [l[i] if i < len(l)
    else d] is the entry at [i] when there is one and [d] otherwise. *)
Definition contact_body (contact_shapes : list string)
    (shape_params : list (gmap string F)) (contact_height : F)
    (i : nat) (pos : list F) : Gen unit :=
  let shape := default "circle" (contact_shapes !! i) in
  let params := default {[ "radius" := lit 10 ]} (shape_params !! i) in
  if String.eqb shape "circle" then
    let radius := dict_get params "radius" (lit 10) in
    _add_circular_contact pos radius contact_height 8
  else if String.eqb shape "square" || String.eqb shape "rect" then
    let width := dict_get params "width" (lit 20) in
    let height := dict_get params "height" width in
    _add_rectangular_contact pos width height contact_height
  else ret tt.

Definition add_contact_geometry (probe : Probe) (contact_height : F)
    : Gen unit :=
  let positions := contact_positions probe in
  n ← py_len positions;
  let contact_shapes :=
    default (replicate n "circle") (contact_shapes probe) in
  n' ← py_len positions;
  let shape_params :=
    default (replicate n' {[ "radius" := lit 10 ]})
            (contact_shape_params probe) in
  let positions := default [] positions in
  let positions_3d :=
    if ndim probe =? 2 then column_stack_zeros positions else positions in
  for_each (zip (seq 0 (length positions_3d)) positions_3d)
    (λ '(i, pos),
       contact_body contact_shapes shape_params contact_height i pos).

(** *** The probe body *)

Definition _generate_basic_probe_shape (probe : Probe)
    (probe_thickness contact_height : F) (add_contacts : bool)
    : Gen bool :=
  try_except
    (let positions := contact_positions probe in
     positions_3d ←
       (if ndim probe =? 2 then
          _ ← py_len positions;
          ret (column_stack_zeros <$> positions)
        else ret positions);
     min_coords ← np_min_axis0 positions_3d;
     max_coords ← np_max_axis0 positions_3d;
     let margin := lit 30 in
     min0 ← getitem min_coords 0;
     max0 ← getitem max_coords 0;
     let x_min := fsub min0 margin in
     let x_max := fadd max0 margin in
     min1 ← getitem min_coords 1;
     max1 ← getitem max_coords 1;
     let y_min := fsub min1 margin in
     let y_max := fadd max1 margin in
     let basic_contour :=
       [ [x_min; y_max]; [x_min; y_min]; [x_max; y_min]; [x_max; y_max] ] in
     '(bottom_indices, top_indices) ←
       extrude_contour basic_contour
         (fdiv (fneg probe_thickness) (lit 2))
         (fdiv probe_thickness (lit 2));
     create_faces_from_contour bottom_indices top_indices;;
     ret true)
    (λ _, ret false).

Definition generate_probe_mesh (probe : Probe)
    (probe_thickness contact_height : F) (add_contacts : bool)
    : Gen bool :=
  try_except
    (reset;;
     let contour := probe_planar_contour probe in
     match contour with
     | None =>
         _generate_basic_probe_shape probe probe_thickness contact_height
           false
     | Some contour =>
         if (length contour <? 3)%nat then
           _generate_basic_probe_shape probe probe_thickness
             contact_height false
         else
           '(bottom_indices, top_indices) ←
             extrude_contour contour
               (fdiv (fneg probe_thickness) (lit 2))
               (fdiv probe_thickness (lit 2));
           create_faces_from_contour bottom_indices top_indices;;
           ret true
     end)
    (λ _, ret false).

End Generator.

Arguments ProbeOBJGenerator F : clear implicits.
Arguments vertex F : clear implicits.
Arguments Probe F : clear implicits.

(** ** Writing the mesh *)

(** The line feed, as a character and as a string. *)
Definition line_feed : ascii := "010"%char.
Definition nl : string := String line_feed "".

(** [str(n)] for an integer. *)
Definition str (n : Z) : string := NilZero.string_of_int (Z.to_int n).

(** The file system as [save_obj] meets it: the text of each file, and the
    paths where [open(filepath, "w")] fails. *)
Record filesystem := mkFs {
  files : gmap string string;
  unwritable : gset string;
}.

(** Modelled from the spec: [pathlib.Path] is the standard library's; the
    generator uses the path itself and its [stem]. *)
Record Path := mkPath {
  path_text : string;
  path_stem : string;
}.

(** [with open(filepath, "w") as f: f.write(...)], writes concatenated. *)
Definition write_file (filepath : Path) (text : string) : M filesystem unit :=
  λ fs,
    if decide (path_text filepath ∈ unwritable fs) then Raise OSError fs
    else Ok tt (mkFs (<[path_text filepath := text]> (files fs))
                     (unwritable fs)).

Section Writer.
Context {F : Type} `{!Fmt F}.

Definition vertex_line (v : vertex F) : string :=
  "v " +:+ fmt6 v.1.1 +:+ " " +:+ fmt6 v.1.2 +:+ " " +:+ fmt6 v.2 +:+ nl.

Definition face_line (face : list Z) : string :=
  "f " +:+ String.concat " " (str <$> face) +:+ nl.

Definition header (self : ProbeOBJGenerator F) (probe_name : string)
    : string :=
  "# Probe: " +:+ probe_name +:+ nl +:+
  "# Generated by ProbeOBJGenerator" +:+ nl +:+
  "# Vertices: " +:+ str (Z.of_nat (length (vertices self))) +:+ nl +:+
  "# Faces: " +:+ str (Z.of_nat (length (faces self))) +:+ nl +:+ nl.

(** Everything [save_obj] writes, in order. *)
Definition obj_text (self : ProbeOBJGenerator F) (probe_name : string)
    : string :=
  header self probe_name +:+
  String.concat "" (vertex_line <$> vertices self) +:+
  nl +:+
  String.concat "" (face_line <$> faces self).

Definition save_obj (self : ProbeOBJGenerator F) (filepath : Path)
    (probe_name : string) : M filesystem bool :=
  try_except
    (write_file filepath (obj_text self probe_name);;
     ret true)
    (λ _, ret false).

Context `{!Arith F}.

(** The module-level function: a generator of its own for every call. *)
Definition generate_probe_obj (probe : Probe F) (output_path : Path)
    (probe_thickness contact_height : F) (add_contacts : bool)
    : M filesystem bool :=
  λ fs,
    match generate_probe_mesh probe probe_thickness contact_height false
            new_generator with
    | Ok true generator =>
        let probe_name :=
          default (path_stem output_path) (model_name probe) in
        save_obj generator output_path probe_name fs
    | Ok false _ => Ok false fs
    | Raise e _ => Raise e fs
    end.

End Writer.

(** ** Binary64 coordinates *)

Definition float_lit (z : Z) : float :=
  if z <? 0 then PrimFloat.opp (PrimFloat.of_uint63 (Uint63.of_Z (- z)))
  else PrimFloat.of_uint63 (Uint63.of_Z z).

(** numpy's reduction loops: [io1 = (io1 <= in2 || isnan(io1)) ? io1 : in2]
    for the minimum, with [>=] for the maximum. *)
Definition float_minimum (a b : float) : float :=
  if PrimFloat.leb a b || PrimFloat.is_nan a then a else b.
Definition float_maximum (a b : float) : float :=
  if PrimFloat.leb b a || PrimFloat.is_nan a then a else b.

Global Instance float_arith : Arith float := {|
  lit := float_lit;
  fadd := PrimFloat.add;
  fsub := PrimFloat.sub;
  fmul := PrimFloat.mul;
  fdiv := PrimFloat.div;
  fneg := PrimFloat.opp;
  minimum := float_minimum;
  maximum := float_maximum;
|}.

(** *** The format [:.6f] of a binary64 float

    Python prints the decimal expansion of the exact binary value, rounded
    to 6 places, ties to the even neighbour; the sign is kept also where
    the rounded value is zero. *)

(** The character of a decimal digit. *)
Definition digit (d : Z) : ascii := Ascii.ascii_of_nat (48 + Z.to_nat d).

(** The last [k] decimal digits of [n], the most significant first. *)
Fixpoint digits (k : nat) (n : Z) : string :=
  match k with
  | O => ""
  | S k' => digits k' (n / 10) +:+ String (digit (n mod 10)) ""
  end.

(** A number of millionths, not negative, with its 6 decimal places. *)
Definition fixed6 (n : Z) : string :=
  str (n / 1000000) +:+ "." +:+ digits 6 (n mod 1000000).

(** [num / den] rounded to the nearest integer, ties to the even one. *)
Definition round_half_even (num den : Z) : Z :=
  let q := num / den in
  let r := num mod den in
  if 2 * r <? den then q
  else if den <? 2 * r then q + 1
  else if Z.even q then q else q + 1.

(** The millionths in [m * 2 ^ e], rounded. *)
Definition millionths (m : positive) (e : Z) : Z :=
  if 0 <=? e then Z.pos m * 2 ^ e * 1000000
  else round_half_even (Z.pos m * 1000000) (2 ^ (- e)).

Definition sign_text (negative : bool) : string :=
  if negative then "-" else "".

Definition float_fmt6 (x : float) : string :=
  match Prim2SF x with
  | S754_nan => "nan"
  | S754_infinity negative => sign_text negative +:+ "inf"
  | S754_zero negative => sign_text negative +:+ fixed6 0
  | S754_finite negative m e =>
      sign_text negative +:+ fixed6 (millionths m e)
  end.

Global Instance float_fmt : Fmt float := {| fmt6 := float_fmt6 |}.

(** ** Symbolic coordinates *)

(** The free instance of the two interfaces: a coordinate is the expression
    the code computed it with.  It runs the generator where the values of
    [np.cos] and [np.sin] are needed. *)
Inductive sym :=
  | SLit (z : Z)
  | SPi
  | SAdd (a b : sym)
  | SSub (a b : sym)
  | SMul (a b : sym)
  | SDiv (a b : sym)
  | SNeg (a : sym)
  | SMin (a b : sym)
  | SMax (a b : sym)
  | SCos (a : sym)
  | SSin (a : sym).

Global Instance sym_arith : Arith sym := {|
  lit := SLit;
  fadd := SAdd;
  fsub := SSub;
  fmul := SMul;
  fdiv := SDiv;
  fneg := SNeg;
  minimum := SMin;
  maximum := SMax;
|}.

Global Instance sym_trig : Trig sym := {|
  np_cos := SCos;
  np_sin := SSin;
  np_pi := SPi;
|}.

(** ** Vocabulary of the statements *)

Section Vocabulary.
Context {F : Type}.

(** A contour point as a row of an array. *)
Definition row2 (p : F * F) : list F := [p.1; p.2].

(** The two vertices [extrude_contour] makes of a contour point. *)
Definition column (z_bottom z_top : F) (p : F * F) : list (vertex F) :=
  [(p.1, p.2, z_bottom); (p.1, p.2, z_top)].

(** The 1-based indices of the bottom and of the top vertex of the contour
    point at position [i], in a generator that held [c] vertices before
    the extrusion. *)
Definition bottom (c : Z) (i : nat) : Z := c + 2 * Z.of_nat i + 1.
Definition top (c : Z) (i : nat) : Z := c + 2 * Z.of_nat i + 2.

(** The side face of the edge from point [i] to point [(i + 1) mod n]. *)
Definition quad (c : Z) (n i : nat) : list Z :=
  [bottom c i; bottom c ((i + 1) mod n); top c ((i + 1) mod n); top c i].

(** The faces of the prism over an [n]-point contour. *)
Definition prism_faces (c : Z) (n : nat) : list (list Z) :=
  (if (3 <=? n)%nat
   then [reverse (bottom c <$> seq 0 n); top c <$> seq 0 n] else [])
  ++ (quad c n <$> seq 0 n).

(** Contact positions: points of the plane for a probe of two dimensions,
    points of space for one of three. *)
Inductive positions :=
  | Planar (pts : list (F * F))
  | Spatial (pts : list (F * F * F)).

Definition position_rows (ps : positions) : list (list F) :=
  match ps with
  | Planar pts => row2 <$> pts
  | Spatial pts => (λ p : F * F * F, [p.1.1; p.1.2; p.2]) <$> pts
  end.

Definition position_ndim (ps : positions) : Z :=
  match ps with Planar _ => 2 | Spatial _ => 3 end.

(** The x and y coordinates of the positions. *)
Definition position_xy (ps : positions) : list (F * F) :=
  match ps with
  | Planar pts => pts
  | Spatial pts => (λ p : F * F * F, p.1) <$> pts
  end.

(** A contour the generator does not use: none, or fewer than 3 points. *)
Definition unusable (contour : option (list (list F))) : Prop :=
  match contour with
  | None => True
  | Some c => (length c < 3)%nat
  end.

(** The bounding box of the points [p :: ps], each side moved out by
    [margin]: top-left, bottom-left, bottom-right, top-right. *)
Definition expanded_box `{!Arith F} (margin : F) (p : F * F)
    (ps : list (F * F)) : list (F * F) :=
  let x_lo := foldl minimum p.1 (fst <$> ps) in
  let x_hi := foldl maximum p.1 (fst <$> ps) in
  let y_lo := foldl minimum p.2 (snd <$> ps) in
  let y_hi := foldl maximum p.2 (snd <$> ps) in
  [ (fsub x_lo margin, fadd y_hi margin);
    (fsub x_lo margin, fsub y_lo margin);
    (fadd x_hi margin, fsub y_lo margin);
    (fadd x_hi margin, fadd y_hi margin) ].

(** The vertex a face index refers to (indices count from 1), and the
    contour point it stands over. *)
Definition vertex_at `{!Arith F} (g : ProbeOBJGenerator F) (i : Z)
    : option (vertex F) :=
  vertices g !! Z.to_nat (i - 1).
Definition point_at `{!Arith F} (g : ProbeOBJGenerator F) (i : Z)
    : option (F * F) :=
  (λ v : vertex F, (v.1.1, v.1.2)) <$> vertex_at g i.

(** The counter of the generator counts its vertices. *)
Definition counted (g : ProbeOBJGenerator F) : Prop :=
  vertex_count g = Z.of_nat (length (vertices g)).

(** The invariant of a mesh: the counter is right and every index of every
    face refers to a vertex there is. *)
Definition well_indexed (g : ProbeOBJGenerator F) : Prop :=
  counted g
  ∧ Forall (Forall (λ i, 1 ≤ i ≤ Z.of_nat (length (vertices g)))) (faces g).

(** A generator that went on from [g]: the vertices of [g] come first and
    unchanged, the counter follows them. *)
Definition grown (g g' : ProbeOBJGenerator F) : Prop :=
  vertices g `prefix_of` vertices g'
  ∧ vertex_count g' - vertex_count g
    = Z.of_nat (length (vertices g')) - Z.of_nat (length (vertices g)).

(** A property of what a call leaves: of the value and the state when it
    returns, of the state when it raises. *)
Definition after {S A} (o : outcome S A) (returned : A → S → Prop)
    (raised : S → Prop) : Prop :=
  match o with
  | Ok a s => returned a s
  | Raise _ s => raised s
  end.


(** The angles [np.linspace(0, 2 * np.pi, n, endpoint=False)]: the multiples
    [0, 1, ..., n - 1] of the [n]-th part of the full turn. *)
Definition even_angles `{!Arith F} `{!Trig F} (n : nat) : list F :=
  (λ k : nat,
     fadd (fmul (lit (Z.of_nat k))
                (fdiv (fsub (fmul (lit 2) np_pi) (lit 0)) (lit (Z.of_nat n))))
          (lit 0)) <$> seq 0 n.

(** The point of the circle of centre [(x, y)] at an angle. *)
Definition circle_point `{!Arith F} `{!Trig F} (x y radius angle : F)
    : F * F :=
  (fadd x (fmul radius (np_cos angle)), fadd y (fmul radius (np_sin angle))).

End Vocabulary.

Arguments positions F : clear implicits.

(** ** Reading a mesh back

    A reader of the text [save_obj] writes, by the layout of the spec: the
    text is taken line by line; a line that begins with [v ] holds the
    coordinates of a vertex, a line that begins with [f ] the indices of a
    face, each separated by blanks; every other line (a comment, an empty
    line) is passed over. *)

(** [s.split(sep)] for a separator of one character. *)
Fixpoint split_on (sep : ascii) (s : string) : list string :=
  match s with
  | "" => [""]
  | String c rest =>
      if Ascii.eqb c sep then "" :: split_on sep rest
      else match split_on sep rest with
           | first :: others => String c first :: others
           | [] => [String c ""]
           end
  end.

(** The words of a line: what stands between its blanks. *)
Definition line_words (line : string) : list string :=
  filter (λ w, w ≠ "") (split_on " " line).

Definition read_index (w : string) : option Z :=
  Z.of_int <$> NilZero.int_of_string w.

(** What a line says. *)
Inductive entry :=
  | Vertex (coordinates : list string)
  | Face (indices : list Z)
  | Skip.

(** A line is read by its first two characters; the indices of a face must
    be integers. *)
Definition read_line (line : string) : option entry :=
  match line with
  | String c1 (String c2 rest) =>
      if Ascii.eqb c2 " " && Ascii.eqb c1 "v" then
        Some (Vertex (line_words rest))
      else if Ascii.eqb c2 " " && Ascii.eqb c1 "f" then
        Face <$> mapM read_index (line_words rest)
      else Some Skip
  | _ => Some Skip
  end.

Definition add_entry (e : entry)
    (mesh : list (list string) * list (list Z))
    : list (list string) * list (list Z) :=
  match e with
  | Vertex coordinates => (coordinates :: mesh.1, mesh.2)
  | Face indices => (mesh.1, indices :: mesh.2)
  | Skip => mesh
  end.

Fixpoint read_lines (lines : list string)
    : option (list (list string) * list (list Z)) :=
  match lines with
  | [] => Some ([], [])
  | line :: rest =>
      e ← read_line line;
      mesh ← read_lines rest;
      Some (add_entry e mesh)
  end.

(** The vertices, each the numerals of its coordinates, and the faces of a
    text. *)
Definition read_obj (text : string)
    : option (list (list string) * list (list Z)) :=
  read_lines (split_on line_feed text).

(** The value of a string of decimal digits. *)
Fixpoint digits_value (acc : Z) (s : string) : option Z :=
  match s with
  | "" => Some acc
  | String c rest =>
      let d := Z.of_nat (Ascii.nat_of_ascii c) - 48 in
      if (0 <=? d) && (d <=? 9) then digits_value (10 * acc + d) rest
      else None
  end.

(** The rational a numeral with a decimal point stands for: an optional
    minus sign, the digits of the whole part, the point, the digits of the
    decimal places. *)
Definition read_decimal (s : string) : option Q :=
  let negative :=
    match s with String c _ => Ascii.eqb c "-" | "" => false end in
  let body :=
    match s with
    | String _ rest => if negative then rest else s
    | "" => s
    end in
  match split_on "." body with
  | [whole; places] =>
      w ← read_index whole;
      guard (0 ≤ w);;
      p ← digits_value 0 places;
      let n := w * 10 ^ Z.of_nat (String.length places) + p in
      Some ((if negative then - n else n)
            # Z.to_pos (10 ^ Z.of_nat (String.length places)))
  | _ => None
  end.

(** The number a finite binary64 float is. *)
Definition float_value (x : float) : option Q :=
  match Prim2SF x with
  | S754_zero _ => Some 0%Q
  | S754_finite negative m e =>
      let n := if negative then Z.neg m else Z.pos m in
      Some (if 0 <=? e then (n * 2 ^ e) # 1 else n # Z.to_pos (2 ^ (- e)))
  | _ => None
  end.

(** A character that is no decimal digit. *)
Definition non_digit (c : ascii) : bool :=
  forallb (λ d, negb (Ascii.eqb d c))
    ["0"; "1"; "2"; "3"; "4"; "5"; "6"; "7"; "8"; "9"]%char.

(** The line of a vertex and of a face, and the lines of the header. *)
Definition vertex_text `{!Fmt F} (v : vertex F) : string :=
  "v " +:+ fmt6 v.1.1 +:+ " " +:+ fmt6 v.1.2 +:+ " " +:+ fmt6 v.2.

Definition face_text (face : list Z) : string :=
  "f " +:+ String.concat " " (str <$> face).

Definition header_lines {F} (self : ProbeOBJGenerator F)
    (probe_name : string) : list string :=
  [ "# Probe: " +:+ probe_name;
    "# Generated by ProbeOBJGenerator";
    "# Vertices: " +:+ str (Z.of_nat (length (vertices self)));
    "# Faces: " +:+ str (Z.of_nat (length (faces self)));
    "" ].

(** A string without the character [c]. *)
Fixpoint without (c : ascii) (s : string) : bool :=
  match s with
  | "" => true
  | String c' rest => negb (Ascii.eqb c' c) && without c rest
  end.

(** The numerals of a coordinate type are words: not empty, without a
    blank and without a line feed. *)
Definition word (w : string) : Prop :=
  w ≠ "" ∧ without " " w = true ∧ without line_feed w = true.

(** The numerals of the coordinates of a vertex, as [save_obj] prints
    them. *)
Definition numerals `{!Fmt F} (v : vertex F) : list string :=
  [fmt6 v.1.1; fmt6 v.1.2; fmt6 v.2].

(** ** Scenarios *)

(** The contour of the unit-square scenario. *)
Definition unit_square : list (list float) :=
  [ [0; 0]; [0; 10]; [10; 10]; [10; 0] ]%float.

(** A small mesh: two vertices and two faces. *)
Definition small_mesh : ProbeOBJGenerator float :=
  mkGen [ (0.5, -30, 0.0078125); (10, 0, 1.5) ]%float [ [1; 2; 2]; [-4; 0] ] 2.



(** The probe of the fallback scenario: no contour, one contact at the
    origin of the plane. *)
Definition lone_contact : Probe float :=
  mkProbe None (Some [ [0; 0] ]%float) 2 None None None.

(** One contact at the origin of the plane, with the given shape tag and
    radius. *)
Definition one_contact (shape : string) (radius : Z) : Probe sym :=
  mkProbe None (Some [ [SLit 0; SLit 0] ]) 2
          (Some [shape]) (Some [ {[ "radius" := SLit radius ]} ]) None.

(** A probe with nothing to draw: a contour of two points, no contacts. *)
Definition bare_probe : Probe float :=
  mkProbe (Some [ [0; 0]; [0; 10] ]%float) (Some []) 2 None None None.

(** * Properties *)

(** ** The extrusion kernel *)

Section Extrusion.
Context {F : Type} `{!Arith F}.

Implicit Types (g : ProbeOBJGenerator F) (bs ts : list Z).

Lemma shift_indices (f : Z → nat → Z) (c : Z) (n : nat) :
  (∀ i, f c (S i) = f (c + 2) i) →
  f c <$> seq 0 (S n) = f c 0%nat :: (f (c + 2) <$> seq 0 n).
Proof.
  intros Hf. cbn [seq fmap list_fmap]. f_equal.
  rewrite <- fmap_S_seq, <- list_fmap_compose.
  apply list_fmap_ext. intros _ i _. apply Hf.
Qed.

Lemma bottom_S c i : bottom c (S i) = bottom (c + 2) i.
Proof. unfold bottom. lia. Qed.

Lemma top_S c i : top c (S i) = top (c + 2) i.
Proof. unfold top. lia. Qed.

Lemma extrude_loop_rows (pts : list (F * F)) (zb zt : F) bs ts g :
  extrude_loop (row2 <$> pts) zb zt bs ts g =
  Ok (bs ++ (bottom (vertex_count g) <$> seq 0 (length pts)),
      ts ++ (top (vertex_count g) <$> seq 0 (length pts)))
     (mkGen (vertices g ++ (pts ≫= column zb zt)) (faces g)
            (vertex_count g + 2 * Z.of_nat (length pts))).
Proof.
  revert bs ts g. induction pts as [|[x y] pts IH]; intros bs ts g.
  - cbn. rewrite !app_nil_r, Z.add_0_r. by destruct g.
  - cbn [fmap list_fmap row2 extrude_loop fst snd].
    unfold mbind, M_bind, bind, unpack2, row2, ret, add_vertex.
    cbn [fst snd vertices faces vertex_count].
    rewrite IH. cbn [vertices faces vertex_count length].
    rewrite (shift_indices bottom), (shift_indices top)
      by (intros; unfold bottom, top; lia).
    replace (vertex_count g + 1 + 1) with (vertex_count g + 2) by lia.
    rewrite <- !app_assoc. cbn [app mbind list_bind column fst snd].
    replace (bottom (vertex_count g) 0%nat) with (vertex_count g + 1)
      by (unfold bottom; lia).
    replace (top (vertex_count g) 0%nat) with (vertex_count g + 2)
      by (unfold top; lia).
    do 2 f_equal. lia.
Qed.

Lemma extrude_contour_rows (pts : list (F * F)) (zb zt : F) g :
  extrude_contour (row2 <$> pts) zb zt g =
  Ok (bottom (vertex_count g) <$> seq 0 (length pts),
      top (vertex_count g) <$> seq 0 (length pts))
     (mkGen (vertices g ++ (pts ≫= column zb zt)) (faces g)
            (vertex_count g + 2 * Z.of_nat (length pts))).
Proof. unfold extrude_contour. by rewrite extrude_loop_rows. Qed.

Lemma side_face_indices (c : Z) (n i : nat) g :
  (i < n)%nat →
  side_face (bottom c <$> seq 0 n) (top c <$> seq 0 n) n i g =
  Ok tt (mkGen (vertices g) (faces g ++ [quad c n i]) (vertex_count g)).
Proof.
  intros Hi. assert (Hn : ((i + 1) mod n < n)%nat)
    by (apply Nat.mod_upper_bound; lia).
  unfold side_face, getitem, mbind, M_bind, bind.
  rewrite !list_lookup_fmap, !lookup_seq_lt by done. done.
Qed.

Lemma side_faces_indices (c : Z) (n : nat) (js : list nat) g :
  Forall (λ i, i < n)%nat js →
  for_each js (side_face (bottom c <$> seq 0 n) (top c <$> seq 0 n) n) g =
  Ok tt (mkGen (vertices g) (faces g ++ (quad c n <$> js))
               (vertex_count g)).
Proof.
  intros Hjs. revert g. induction Hjs as [|i js Hi _ IH]; intros g.
  - cbn. rewrite app_nil_r. by destruct g.
  - cbn [for_each]. unfold mbind, M_bind, bind.
    rewrite side_face_indices by done. rewrite IH.
    cbn [vertices faces vertex_count]. by rewrite <- app_assoc.
Qed.

Lemma create_faces_indices (c : Z) (n : nat) g :
  create_faces_from_contour (bottom c <$> seq 0 n) (top c <$> seq 0 n) g =
  Ok tt (mkGen (vertices g) (faces g ++ prism_faces c n) (vertex_count g)).
Proof.
  unfold create_faces_from_contour, prism_faces.
  rewrite length_fmap, length_seq.
  unfold mbind, M_bind, bind.
  destruct (3 <=? n)%nat; cbn [add_face ret];
    rewrite side_faces_indices
      by (apply Forall_forall; intros i Hi%elem_of_seq; lia);
    cbn [vertices faces vertex_count]; by rewrite <- ?app_assoc.
Qed.

(** What the two calls of [generate_probe_mesh] and of the fallback do to
    a generator. *)
Lemma extrude_then_faces (pts : list (F * F)) (zb zt : F) g :
  ('(bs, ts) ← extrude_contour (row2 <$> pts) zb zt;
   create_faces_from_contour bs ts) g =
  Ok tt (mkGen (vertices g ++ (pts ≫= column zb zt))
               (faces g ++ prism_faces (vertex_count g) (length pts))
               (vertex_count g + 2 * Z.of_nat (length pts))).
Proof.
  unfold mbind at 1. unfold M_bind, bind.
  rewrite extrude_contour_rows, create_faces_indices. done.
Qed.

End Extrusion.

Section PrismFaces.

Lemma quad_bounds (c : Z) (n i : nat) :
  (i < n)%nat →
  Forall (λ j, c + 1 ≤ j ≤ c + 2 * Z.of_nat n) (quad c n i).
Proof.
  intros Hi. assert (Hn : ((i + 1) mod n < n)%nat)
    by (apply Nat.mod_upper_bound; lia).
  unfold quad, bottom, top. repeat constructor; lia.
Qed.

Lemma prism_faces_length (c : Z) (n : nat) :
  length (prism_faces c n) = (if (3 <=? n)%nat then n + 2 else n)%nat.
Proof.
  unfold prism_faces. rewrite length_app, length_fmap, length_seq.
  destruct (3 <=? n)%nat; cbn [length]; lia.
Qed.

Lemma prism_faces_bounds (c : Z) (n : nat) :
  Forall (Forall (λ j, c + 1 ≤ j ≤ c + 2 * Z.of_nat n)) (prism_faces c n).
Proof.
  assert (Hb : Forall (λ j, c + 1 ≤ j ≤ c + 2 * Z.of_nat n)
                 (bottom c <$> seq 0 n)).
  { apply Forall_fmap, Forall_forall. intros i Hi%elem_of_seq.
    unfold bottom; cbn; lia. }
  assert (Ht : Forall (λ j, c + 1 ≤ j ≤ c + 2 * Z.of_nat n)
                 (top c <$> seq 0 n)).
  { apply Forall_fmap, Forall_forall. intros i Hi%elem_of_seq.
    unfold top; cbn; lia. }
  unfold prism_faces. apply Forall_app. split.
  - destruct (3 <=? n)%nat; repeat constructor; [|done].
    by apply Forall_reverse.
  - apply Forall_fmap, Forall_forall. intros i Hi%elem_of_seq.
    apply quad_bounds. lia.
Qed.

Lemma columns_length {F} (zb zt : F) (pts : list (F * F)) :
  length (pts ≫= column zb zt) = (2 * length pts)%nat.
Proof. induction pts as [|p pts IH]; cbn in *; lia. Qed.

Lemma columns_lookup {F} (zb zt : F) (pts : list (F * F)) (i : nat) p :
  pts !! i = Some p →
  (pts ≫= column zb zt) !! (2 * i)%nat = Some (p.1, p.2, zb)
  ∧ (pts ≫= column zb zt) !! (2 * i + 1)%nat = Some (p.1, p.2, zt).
Proof.
  revert i. induction pts as [|q pts IH]; intros i Hp; [done|].
  destruct i as [|i].
  - injection Hp as ->. done.
  - replace (2 * S i)%nat with (S (S (2 * i))) by lia.
    cbn in Hp |- *. by apply IH.
Qed.

End PrismFaces.

(** ** Contours of three points and more *)

(** C1. Extruding a contour of N ≥ 3 points between any two planes and
    creating its faces, on a generator that holds nothing yet, succeeds; the
    generator then holds the 2N vertices bottom-then-top per point in
    contour order, and N + 2 faces whose indices all lie in [1, 2N]. *)
Theorem extrusion_counts {F : Type} `{!Arith F}
    (pts : list (F * F)) (z_bottom z_top : F) :
  (3 ≤ length pts)%nat →
  ∃ g : ProbeOBJGenerator F,
    ('(bs, ts) ← extrude_contour (row2 <$> pts) z_bottom z_top;
     create_faces_from_contour bs ts) new_generator = Ok tt g
    ∧ vertices g = pts ≫= column z_bottom z_top
    ∧ length (vertices g) = (2 * length pts)%nat
    ∧ length (faces g) = (length pts + 2)%nat
    ∧ Forall (Forall (λ i, 1 ≤ i ≤ 2 * Z.of_nat (length pts))) (faces g).
Proof.
  intros HN. eexists. split; [apply extrude_then_faces|].
  cbn [new_generator vertices faces vertex_count app].
  split; [done|]. split; [apply columns_length|].
  split.
  - rewrite prism_faces_length.
    by destruct (Nat.leb_spec 3 (length pts)); [|lia].
  - apply (prism_faces_bounds 0).
Qed.

Lemma extrusion_counts_witness :
  ∃ g : ProbeOBJGenerator float,
    ('(bs, ts) ← extrude_contour unit_square (-10)%float 10%float;
     create_faces_from_contour bs ts) new_generator = Ok tt g
    ∧ length (vertices g) = 8%nat ∧ length (faces g) = 6%nat.
Proof.
  destruct (extrusion_counts
              [(0, 0); (0, 10); (10, 10); (10, 0)]%float (-10)%float 10%float)
    as (g & Hrun & _ & Hv & Hf & _); [cbn; lia|].
  exists g. split; [exact Hrun|]. split; [exact Hv|exact Hf].
Defined.

(** C2. For a contour of N ≥ 3 points the faces are, in this order: the
    bottom cap, the bottom indices in reversed contour order; the top cap,
    the top indices in contour order; then one quadrilateral per edge from
    point i to point (i + 1) mod N, [bottom i, bottom (i+1), top (i+1),
    top i], where bottom i = 2i + 1 and top i = 2i + 2 are the vertices of
    point i.  For the unit square at thickness 20 the mesh has 8 vertices
    and 6 faces, the first of them [7, 5, 3, 1]. *)
Theorem extrusion_faces :
  (∀ (F : Type) `{!Arith F} (pts : list (F * F)) (z_bottom z_top : F),
     (3 ≤ length pts)%nat →
     ∃ g : ProbeOBJGenerator F,
       ('(bs, ts) ← extrude_contour (row2 <$> pts) z_bottom z_top;
        create_faces_from_contour bs ts) new_generator = Ok tt g
       ∧ faces g =
           reverse (bottom 0 <$> seq 0 (length pts))
           :: (top 0 <$> seq 0 (length pts))
           :: (quad 0 (length pts) <$> seq 0 (length pts))
       ∧ ∀ (i : nat) (p : F * F), pts !! i = Some p →
           bottom 0 i = 2 * Z.of_nat i + 1
           ∧ top 0 i = 2 * Z.of_nat i + 2
           ∧ vertices g !! Z.to_nat (bottom 0 i - 1)
             = Some (p.1, p.2, z_bottom)
           ∧ vertices g !! Z.to_nat (top 0 i - 1) = Some (p.1, p.2, z_top))
  ∧ generate_probe_mesh
      (mkProbe (Some unit_square) None 2 None None None)
      20%float 2%float false new_generator
    = Ok true
        (mkGen
           [ (0, 0, -10); (0, 0, 10); (0, 10, -10); (0, 10, 10);
             (10, 10, -10); (10, 10, 10); (10, 0, -10); (10, 0, 10) ]%float
           [ [7; 5; 3; 1]; [2; 4; 6; 8];
             [1; 3; 4; 2]; [3; 5; 6; 4]; [5; 7; 8; 6]; [7; 1; 2; 8] ]
           8).
Proof.
  split; [|by vm_compute].
  intros F ? pts zb zt HN. eexists. split; [apply extrude_then_faces|].
  cbn [new_generator vertices faces vertex_count app]. split.
  - unfold prism_faces. by destruct (Nat.leb_spec 3 (length pts)); [|lia].
  - intros i p Hp. unfold bottom, top.
    split; [lia|]. split; [lia|].
    replace (Z.to_nat (0 + 2 * Z.of_nat i + 1 - 1)) with (2 * i)%nat by lia.
    replace (Z.to_nat (0 + 2 * Z.of_nat i + 2 - 1)) with (2 * i + 1)%nat
      by lia.
    by apply columns_lookup.
Qed.

Lemma extrusion_faces_witness :
  ∃ g : ProbeOBJGenerator sym,
    ('(bs, ts) ←
       extrude_contour [ [SLit 0; SLit 0]; [SLit 4; SLit 0]; [SLit 0; SLit 3] ]
         (SLit 0) (SLit 1);
     create_faces_from_contour bs ts) new_generator = Ok tt g
    ∧ faces g = [ [5; 3; 1]; [2; 4; 6]; [1; 3; 4; 2]; [3; 5; 6; 4];
                  [5; 1; 2; 6] ].
Proof.
  destruct (proj1 extrusion_faces sym _
              [(SLit 0, SLit 0); (SLit 4, SLit 0); (SLit 0, SLit 3)]
              (SLit 0) (SLit 1))
    as (g & Hrun & Hf & _); [cbn; lia|].
  exists g. split; [exact Hrun|exact Hf].
Defined.

(** The contour point under a bottom vertex and under a top vertex. *)
Lemma point_at_column {F : Type} `{!Arith F} (pts : list (F * F))
    (zb zt : F) (fs : list (list Z)) (c : Z) (i : nat) :
  (i < length pts)%nat →
  point_at (mkGen (pts ≫= column zb zt) fs c) (bottom 0 i) = pts !! i
  ∧ point_at (mkGen (pts ≫= column zb zt) fs c) (top 0 i) = pts !! i.
Proof.
  intros Hi. destruct (lookup_lt_is_Some_2 pts i Hi) as [[x y] Hp].
  destruct (columns_lookup zb zt pts i (x, y) Hp) as [Hb Ht].
  unfold point_at, vertex_at, bottom, top. cbn [vertices].
  replace (Z.to_nat (0 + 2 * Z.of_nat i + 1 - 1)) with (2 * i)%nat by lia.
  replace (Z.to_nat (0 + 2 * Z.of_nat i + 2 - 1)) with (2 * i + 1)%nat by lia.
  unfold vertex in *. rewrite Hb, Ht, Hp. done.
Qed.

(** C3, as the code has it. The two caps are different index lists: the
    bottom cap holds bottom vertices, the top cap top vertices. Entry by
    entry the bottom cap is the reversed top cap with each index lowered by
    one, so the two caps go through the same contour points in opposite
    order. *)
Theorem caps_mirror_points {F : Type} `{!Arith F}
    (pts : list (F * F)) (z_bottom z_top : F) :
  (3 ≤ length pts)%nat →
  ∃ (g : ProbeOBJGenerator F) (bottom_cap top_cap : list Z),
    ('(bs, ts) ← extrude_contour (row2 <$> pts) z_bottom z_top;
     create_faces_from_contour bs ts) new_generator = Ok tt g
    ∧ faces g !! 0%nat = Some bottom_cap
    ∧ faces g !! 1%nat = Some top_cap
    ∧ bottom_cap = reverse (Z.pred <$> top_cap)
    ∧ point_at g <$> bottom_cap = reverse (point_at g <$> top_cap)
    ∧ point_at g <$> top_cap = Some <$> pts.
Proof.
  intros HN. eexists _, _, _. split; [apply extrude_then_faces|].
  cbn [new_generator vertices faces vertex_count app].
  unfold prism_faces. destruct (Nat.leb_spec 3 (length pts)); [|lia].
  split; [done|]. split; [done|].
  assert (Hpred : Z.pred <$> (top 0 <$> seq 0 (length pts))
                  = bottom 0 <$> seq 0 (length pts)).
  { rewrite <- list_fmap_compose. apply list_fmap_ext.
    intros _ i _. unfold bottom, top; cbn; lia. }
  assert (Htop : point_at (mkGen (pts ≫= column z_bottom z_top)
                   (reverse (bottom 0 <$> seq 0 (length pts))
                    :: (top 0 <$> seq 0 (length pts))
                    :: (quad 0 (length pts) <$> seq 0 (length pts)))
                   (0 + 2 * Z.of_nat (length pts)))
                 <$> (top 0 <$> seq 0 (length pts)) = Some <$> pts).
  { apply list_eq. intros i. rewrite !list_lookup_fmap.
    destruct (decide (i < length pts)%nat) as [Hi|Hi].
    - rewrite lookup_seq_lt by done. cbn.
      destruct (point_at_column pts z_bottom z_top
        (reverse (bottom 0 <$> seq 0 (length pts))
         :: (top 0 <$> seq 0 (length pts))
         :: (quad 0 (length pts) <$> seq 0 (length pts)))
        (0 + 2 * Z.of_nat (length pts)) i Hi) as [_ ->].
      by destruct (lookup_lt_is_Some_2 pts i Hi) as [p ->].
    - rewrite lookup_seq_ge, (lookup_ge_None_2 pts) by lia. done. }
  split; [by rewrite Hpred|]. split; [|exact Htop].
  rewrite fmap_reverse. f_equal. rewrite <- !list_fmap_compose.
  apply list_fmap_ext. intros k i Hi%lookup_seq. cbn.
  destruct (point_at_column pts z_bottom z_top
    (reverse (bottom 0 <$> seq 0 (length pts))
     :: (top 0 <$> seq 0 (length pts))
     :: (quad 0 (length pts) <$> seq 0 (length pts)))
    (0 + 2 * Z.of_nat (length pts)) i) as [-> ->]; [lia|done].
Qed.

Lemma caps_mirror_points_witness :
  ∃ (g : ProbeOBJGenerator float) (bottom_cap top_cap : list Z),
    ('(bs, ts) ← extrude_contour unit_square (-10)%float 10%float;
     create_faces_from_contour bs ts) new_generator = Ok tt g
    ∧ faces g !! 0%nat = Some bottom_cap
    ∧ faces g !! 1%nat = Some top_cap
    ∧ bottom_cap = reverse (Z.pred <$> top_cap).
Proof.
  destruct (caps_mirror_points
              [(0, 0); (0, 10); (10, 10); (10, 0)]%float (-10)%float 10%float)
    as (g & bc & tc & Hrun & Hb & Ht & Hrev & _); [cbn; lia|].
  exists g, bc, tc. repeat split; assumption.
Defined.

(** C3, as the spec words it, fails on the unit square: the bottom cap is
    [7, 5, 3, 1] and the reversed top cap is [8, 6, 4, 2]. *)
Lemma caps_not_reversed_lists :
  let g := state_of
             (('(bs, ts) ← extrude_contour unit_square (-10)%float 10%float;
               create_faces_from_contour bs ts) new_generator) in
  faces g !! 0%nat = Some [7; 5; 3; 1]
  ∧ reverse <$> faces g !! 1%nat = Some [8; 6; 4; 2]
  ∧ bool_decide (faces g !! 0%nat = reverse <$> faces g !! 1%nat) = false.
Proof. by vm_compute. Qed.

(** ** Contours of one and two points *)

(** C10. Handed a contour of one or two points, the kernel does not refuse
    it: [extrude_contour] appends the 2N vertices, and
    [create_faces_from_contour] adds no cap and N side faces. For N = 1 the
    one face repeats the two vertices; for N = 2 the two faces are over the
    same four vertices. *)
Theorem degenerate_extrusion {F : Type} `{!Arith F}
    (pts : list (F * F)) (z_bottom z_top : F) :
  (0 < length pts < 3)%nat →
  ∃ g1 g2 : ProbeOBJGenerator F,
    extrude_contour (row2 <$> pts) z_bottom z_top new_generator
      = Ok (bottom 0 <$> seq 0 (length pts), top 0 <$> seq 0 (length pts)) g1
    ∧ vertices g1 = pts ≫= column z_bottom z_top
    ∧ length (vertices g1) = (2 * length pts)%nat
    ∧ create_faces_from_contour
        (bottom 0 <$> seq 0 (length pts)) (top 0 <$> seq 0 (length pts)) g1
      = Ok tt g2
    ∧ vertices g2 = vertices g1
    ∧ faces g2 = quad 0 (length pts) <$> seq 0 (length pts)
    ∧ length (faces g2) = length pts
    ∧ (length pts = 1%nat → faces g2 = [ [1; 1; 2; 2] ])
    ∧ (length pts = 2%nat → faces g2 = [ [1; 3; 4; 2]; [3; 1; 2; 4] ]).
Proof.
  intros HN. eexists _, _.
  split; [apply extrude_contour_rows|].
  cbn [new_generator vertices faces vertex_count app].
  split; [done|]. split; [apply columns_length|].
  split; [apply (create_faces_indices 0)|].
  cbn [vertices faces vertex_count app]. split; [done|].
  unfold prism_faces. destruct (Nat.leb_spec 3 (length pts)); [lia|].
  cbn [app]. split; [done|].
  split; [by rewrite length_fmap, length_seq|].
  split; intros ->; done.
Qed.

Lemma degenerate_extrusion_witness :
  ∃ g1 g2 : ProbeOBJGenerator float,
    extrude_contour [ [0; 0]; [0; 10] ]%float (-10)%float 10%float
      new_generator = Ok ([1; 3], [2; 4]) g1
    ∧ create_faces_from_contour [1; 3] [2; 4] g1 = Ok tt g2
    ∧ faces g2 = [ [1; 3; 4; 2]; [3; 1; 2; 4] ].
Proof.
  destruct (degenerate_extrusion [(0, 0); (0, 10)]%float (-10)%float 10%float)
    as (g1 & g2 & H1 & _ & _ & H2 & _ & _ & _ & _ & H3); [cbn; lia|].
  exists g1, g2. split; [exact H1|]. split; [exact H2|]. by apply H3.
Defined.

(** ** Reading a run backwards *)

Section Inversion.
Context {S : Type}.

Lemma bind_Ok {A B} (c : M S A) (k : A → M S B) (s s2 : S) (b : B) :
  (c ≫= k) s = Ok b s2 → ∃ a s1, c s = Ok a s1 ∧ k a s1 = Ok b s2.
Proof.
  unfold mbind, M_bind, bind. destruct (c s) as [a s1|e s1]; [|done].
  intros Hk. by exists a, s1.
Qed.

Lemma try_except_true (c : M S bool) (s s' : S) :
  try_except c (λ _, ret false) s = Ok true s' → c s = Ok true s'.
Proof. unfold try_except. by destruct (c s). Qed.

Lemma ret_Ok {A} (a b : A) (s s' : S) :
  ret a s = Ok b s' → b = a ∧ s' = s.
Proof. by intros [= -> ->]. Qed.

Lemma py_len_Ok {A} (l : option (list A)) (n : nat) (s s' : S) :
  py_len l s = Ok n s' → s' = s.
Proof. destruct l; by intros [=]. Qed.

Lemma getitem_Ok {A} (l : list A) (i : nat) (a : A) (s s' : S) :
  getitem l i s = Ok a s' → l !! i = Some a ∧ s' = s.
Proof. unfold getitem. destruct (l !! i); by intros [= -> ->]. Qed.

End Inversion.

(** ** The probe body *)

Ltac monad_unfold :=
  unfold mbind, M_bind, bind, mret, M_ret, ret, raise, try_except, getitem,
    py_len, np_min_axis0, np_max_axis0, reduce_axis0 in *.

Section ProbeBody.
Context {F : Type} `{!Arith F} `{!Trig F}.

Implicit Types (g : ProbeOBJGenerator F) (probe : Probe F).


Lemma basic_shape_returns probe (t h : F) (a : bool) g :
  ∃ ok g', _generate_basic_probe_shape probe t h a g = Ok ok g'.
Proof.
  unfold _generate_basic_probe_shape, try_except.
  match goal with |- context [match ?c with _ => _ end] => destruct c end;
    by eexists _, _.
Qed.

(** The reduction along axis 0 of rows that start with the coordinates
    [xys]: its first two entries are the reductions of the x and of the y
    coordinates. *)
Lemma reduce_rows_xy (op : F → F → F) (rows : list (list F))
    (xys : list (F * F)) :
  Forall2 (λ row p, ∃ tl, row = p.1 :: p.2 :: tl) rows xys →
  ∀ x0 y0 t0, ∃ t,
    foldl (zip_with op) (x0 :: y0 :: t0) rows
    = foldl op x0 (fst <$> xys) :: foldl op y0 (snd <$> xys) :: t.
Proof.
  induction 1 as [|row p rows xys [tl ->] _ IH]; intros x0 y0 t0.
  - by eexists.
  - cbn. apply IH.
Qed.

(** The rows [_generate_basic_probe_shape] reduces, for positions in the
    plane and in space. *)
Lemma position_rows_xy (ps : positions F) :
  Forall2 (λ row p, ∃ tl, row = p.1 :: p.2 :: tl)
    (if position_ndim ps =? 2 then column_stack_zeros (position_rows ps)
     else position_rows ps)
    (position_xy ps).
Proof.
  destruct ps as [pts|pts]; cbn.
  - unfold column_stack_zeros. rewrite <- list_fmap_compose.
    apply Forall2_fmap_l, Forall_Forall2_diag, Forall_forall.
    intros p _. by eexists.
  - apply Forall2_fmap, Forall_Forall2_diag, Forall_forall.
    intros p _. by eexists.
Qed.

Lemma basic_shape_box probe (ps : positions F) (p : F * F)
    (rest : list (F * F)) (t h : F) (a : bool) g :
  contact_positions probe = Some (position_rows ps) →
  ndim probe = position_ndim ps →
  position_xy ps = p :: rest →
  _generate_basic_probe_shape probe t h a g =
  Ok true
    (mkGen
       (vertices g ++
        (expanded_box (lit 30) p rest
           ≫= column (fdiv (fneg t) (lit 2)) (fdiv t (lit 2))))
       (faces g ++ prism_faces (vertex_count g) 4)
       (vertex_count g + 8)).
Proof.
  intros Hpos Hdim Hxy.
  pose proof (position_rows_xy ps) as Hrows. rewrite Hxy in Hrows.
  unfold _generate_basic_probe_shape. rewrite Hpos, Hdim.
  unfold try_except, mbind at 1, M_bind at 1, bind at 1.
  assert (∃ rows,
    (if position_ndim ps =? 2
     then column_stack_zeros (position_rows ps) else position_rows ps) = rows
    ∧ (if position_ndim ps =? 2
       then (_ ← py_len (Some (position_rows ps));
             ret (column_stack_zeros <$> Some (position_rows ps)))
       else ret (Some (position_rows ps))) g = Ok (Some rows) g)
    as (rows & Hr & ->).
  { eexists. split; [done|]. by destruct (position_ndim ps =? 2). }
  rewrite Hr in Hrows.
  inversion Hrows as [|row p' rows' rest' [tl Hrow] Hrest Hr' Hp]; subst.
  destruct (reduce_rows_xy minimum rows' rest Hrest p.1 p.2 tl) as [tmin Hmin].
  destruct (reduce_rows_xy maximum rows' rest Hrest p.1 p.2 tl) as [tmax Hmax].
  unfold mbind at 1, M_bind at 1, bind at 1, np_min_axis0, reduce_axis0.
  cbn [ret]. rewrite Hmin.
  unfold mbind at 1, M_bind at 1, bind at 1, np_max_axis0, reduce_axis0.
  cbn [ret]. rewrite Hmax.
  unfold mbind at 1 2 3 4, M_bind at 1 2 3 4, bind at 1 2 3 4, getitem.
  cbn [lookup list_lookup ret].
  unfold mbind at 1, M_bind at 1, bind at 1.
  pose proof (extrude_contour_rows (expanded_box (lit 30) p rest)
    (fdiv (fneg t) (lit 2)) (fdiv t (lit 2)) g) as Hex.
  unfold expanded_box, row2 in Hex |- *.
  cbn [fmap list_fmap fst snd length] in Hex. rewrite Hex.
  unfold mbind, M_bind, bind. rewrite create_faces_indices.
  cbn [vertices faces vertex_count ret]. done.
Qed.

(** A contour array is made of points of the plane, or its extrusion
    raises at the first row that is not one. *)
Lemma extrude_loop_cases (rows : list (list F)) :
  (∃ pts, rows = row2 <$> pts)
  ∨ (∀ zb zt bs ts g, ∃ e g', extrude_loop rows zb zt bs ts g = Raise e g').
Proof.
  induction rows as [|row rows IH].
  - left. by exists [].
  - destruct row as [|x [|y [|z row]]];
      try by (right; intros; eexists _, _).
    destruct IH as [[pts ->]|IH].
    + left. by exists ((x, y) :: pts).
    + right. intros zb zt bs ts g. cbn [extrude_loop].
      unfold mbind, M_bind, bind, unpack2, ret, add_vertex.
      apply IH.
Qed.

(** With a contour of three points or more, the mesh is its prism. *)
Lemma mesh_of_contour probe (pts : list (F * F)) (t h : F) (a : bool) g :
  probe_planar_contour probe = Some (row2 <$> pts) →
  (3 ≤ length pts)%nat →
  generate_probe_mesh probe t h a g =
  Ok true
    (mkGen (pts ≫= column (fdiv (fneg t) (lit 2)) (fdiv t (lit 2)))
           (prism_faces 0 (length pts))
           (2 * Z.of_nat (length pts))).
Proof.
  intros Hc HN. unfold generate_probe_mesh. rewrite Hc, length_fmap.
  destruct (Nat.ltb_spec (length pts) 3); [lia|].
  unfold try_except, mbind, M_bind, bind, reset.
  rewrite extrude_contour_rows, create_faces_indices. done.
Qed.

(** Without one, it is the prism of the expanded bounding box of the
    contact positions. *)
Lemma mesh_of_positions probe (ps : positions F) (p : F * F)
    (rest : list (F * F)) (t h : F) (a : bool) g :
  unusable (probe_planar_contour probe) →
  contact_positions probe = Some (position_rows ps) →
  ndim probe = position_ndim ps →
  position_xy ps = p :: rest →
  generate_probe_mesh probe t h a g =
  Ok true
    (mkGen
       (expanded_box (lit 30) p rest
          ≫= column (fdiv (fneg t) (lit 2)) (fdiv t (lit 2)))
       (prism_faces 0 4) 8).
Proof.
  intros Hc Hpos Hdim Hxy.
  assert (Hb := λ g, basic_shape_box probe ps p rest t h false g Hpos Hdim Hxy).
  unfold generate_probe_mesh, try_except, mbind, M_bind, bind, reset.
  destruct (probe_planar_contour probe) as [c|]; cbn in Hc.
  - destruct (Nat.ltb_spec (length c) 3); [|lia]. by rewrite Hb.
  - by rewrite Hb.
Qed.

(** Without positions either, there is no mesh. *)
Lemma basic_shape_without_positions probe (t h : F) (a : bool) g :
  contact_positions probe = None ∨ contact_positions probe = Some [] →
  _generate_basic_probe_shape probe t h a g = Ok false g.
Proof.
  intros Hpos. unfold _generate_basic_probe_shape.
  destruct Hpos as [-> | ->]; by destruct (ndim probe =? 2).
Qed.

Lemma mesh_without_positions probe (t h : F) (a : bool) g :
  unusable (probe_planar_contour probe) →
  contact_positions probe = None ∨ contact_positions probe = Some [] →
  generate_probe_mesh probe t h a g = Ok false new_generator.
Proof.
  intros Hc Hpos.
  assert (Hb := λ g, basic_shape_without_positions probe t h false g Hpos).
  unfold generate_probe_mesh, try_except, mbind, M_bind, bind, reset.
  destruct (probe_planar_contour probe) as [c|]; cbn in Hc.
  - destruct (Nat.ltb_spec (length c) 3); [|lia]. by rewrite Hb.
  - by rewrite Hb.
Qed.

Lemma reduce_axis0_Ok (op : F → F → F) (arr : option (list (list F)))
    (r : list F) g g' :
  reduce_axis0 op arr g = Ok r g' → g' = g.
Proof. destruct arr as [[|??]|]; by intros [=]. Qed.

(** A fallback that succeeds has added the prism of four points. *)
Lemma basic_shape_success probe (t h : F) (a : bool) g g' :
  _generate_basic_probe_shape probe t h a g = Ok true g' →
  ∃ pts : list (F * F),
    length pts = 4%nat
    ∧ g' = mkGen
        (vertices g ++
         (pts ≫= column (fdiv (fneg t) (lit 2)) (fdiv t (lit 2))))
        (faces g ++ prism_faces (vertex_count g) 4)
        (vertex_count g + 8).
Proof.
  unfold _generate_basic_probe_shape. intros Hrun%try_except_true.
  apply bind_Ok in Hrun as (positions_3d & g1 & Hsel & Hrun).
  assert (g1 = g) as ->.
  { destruct (ndim probe =? 2).
    - apply bind_Ok in Hsel as (n & g2 & ->%py_len_Ok & [_ ->]%ret_Ok). done.
    - by apply ret_Ok in Hsel as [_ ->]. }
  apply bind_Ok in Hrun as (min_coords & g1 & Hmin & Hrun).
  apply reduce_axis0_Ok in Hmin as ->.
  apply bind_Ok in Hrun as (max_coords & g1 & Hmax & Hrun).
  apply reduce_axis0_Ok in Hmax as ->.
  apply bind_Ok in Hrun as (min0 & g1 & [_ ->]%getitem_Ok & Hrun).
  apply bind_Ok in Hrun as (max0 & g1 & [_ ->]%getitem_Ok & Hrun).
  apply bind_Ok in Hrun as (min1 & g1 & [_ ->]%getitem_Ok & Hrun).
  apply bind_Ok in Hrun as (max1 & g1 & [_ ->]%getitem_Ok & Hrun).
  apply bind_Ok in Hrun as ([bs ts] & g1 & Hex & Hrun).
  apply bind_Ok in Hrun as ([] & g2 & Hfaces & [_ ->]%ret_Ok).
  pose proof (extrude_contour_rows
    [ (fsub min0 (lit 30), fadd max1 (lit 30));
      (fsub min0 (lit 30), fsub min1 (lit 30));
      (fadd max0 (lit 30), fsub min1 (lit 30));
      (fadd max0 (lit 30), fadd max1 (lit 30)) ]
    (fdiv (fneg t) (lit 2)) (fdiv t (lit 2)) g) as Hrows.
  pose proof (eq_trans (eq_sym Hex) Hrows) as Heq.
  set (box := [ (fsub min0 (lit 30), fadd max1 (lit 30));
                (fsub min0 (lit 30), fsub min1 (lit 30));
                (fadd max0 (lit 30), fsub min1 (lit 30));
                (fadd max0 (lit 30), fadd max1 (lit 30)) ]) in *.
  assert (bs = bottom (vertex_count g) <$> seq 0 (length box)
          ∧ ts = top (vertex_count g) <$> seq 0 (length box)
          ∧ g1 = mkGen
              (vertices g ++
               (box ≫= column (fdiv (fneg t) (lit 2)) (fdiv t (lit 2))))
              (faces g) (vertex_count g + 2 * Z.of_nat (length box)))
    as (-> & -> & ->) by (by injection Heq).
  rewrite create_faces_indices in Hfaces. injection Hfaces as <-.
  exists box. split; [done|]. cbn [vertices faces vertex_count]. done.
Qed.

(** A mesh that was generated is the prism of the contour, or of four
    points when the contour is not usable. *)
Lemma mesh_success probe (t h : F) (a : bool) g g' :
  generate_probe_mesh probe t h a g = Ok true g' →
  ∃ pts : list (F * F),
    g' = mkGen (pts ≫= column (fdiv (fneg t) (lit 2)) (fdiv t (lit 2)))
               (prism_faces 0 (length pts))
               (2 * Z.of_nat (length pts))
    ∧ ((3 ≤ length pts)%nat
       ∧ probe_planar_contour probe = Some (row2 <$> pts)
       ∨ unusable (probe_planar_contour probe) ∧ length pts = 4%nat).
Proof.
  intros Hrun.
  assert (Hfallback :
    _generate_basic_probe_shape probe t h false (mkGen [] [] 0) = Ok true g' →
    unusable (probe_planar_contour probe) →
    ∃ pts : list (F * F),
      g' = mkGen (pts ≫= column (fdiv (fneg t) (lit 2)) (fdiv t (lit 2)))
                 (prism_faces 0 (length pts))
                 (2 * Z.of_nat (length pts))
      ∧ ((3 ≤ length pts)%nat
         ∧ probe_planar_contour probe = Some (row2 <$> pts)
         ∨ unusable (probe_planar_contour probe) ∧ length pts = 4%nat)).
  { intros (pts & Hlen & ->)%basic_shape_success Hc. exists pts.
    rewrite Hlen. split; [done|]. by right. }
  destruct (probe_planar_contour probe) as [rows|] eqn:Hc.
  - destruct (Nat.ltb_spec (length rows) 3) as [Hlt|Hge].
    + apply Hfallback; [|done].
      unfold generate_probe_mesh in Hrun. rewrite Hc in Hrun.
      apply try_except_true, bind_Ok in Hrun as ([] & g1 & [= <-] & Hrun).
      by destruct (Nat.ltb_spec (length rows) 3); [|lia].
    + destruct (extrude_loop_cases rows) as [[pts ->]|Hraise].
      * rewrite length_fmap in Hge.
        rewrite (mesh_of_contour probe pts t h a g Hc Hge) in Hrun.
        injection Hrun as <-. exists pts. split; [done|]. by left.
      * unfold generate_probe_mesh in Hrun. rewrite Hc in Hrun.
        apply try_except_true, bind_Ok in Hrun as ([] & g1 & [= <-] & Hrun).
        destruct (Nat.ltb_spec (length rows) 3); [lia|].
        apply bind_Ok in Hrun as (? & ? & Hex & _).
        unfold extrude_contour in Hex.
        by destruct (Hraise (fdiv (fneg t) (lit 2)) (fdiv t (lit 2)) [] []
                       (mkGen [] [] 0)) as (e & g2 & Hr); rewrite Hr in Hex.
  - apply Hfallback; [|done].
    unfold generate_probe_mesh in Hrun. rewrite Hc in Hrun.
    by apply try_except_true, bind_Ok in Hrun as ([] & g1 & [= <-] & Hrun).
Qed.

(** The generator starts from nothing, whatever it held, and never reads
    its last argument. *)
Lemma mesh_ignores_flag probe (t h : F) (a a' : bool) g g0 :
  generate_probe_mesh probe t h a g = generate_probe_mesh probe t h a' g0.
Proof. reflexivity. Qed.

End ProbeBody.

(** ** The fallback rectangle *)

(** C6. When the contour is absent or has fewer than 3 points and there is a
    contact position, the mesh is the prism, between minus and plus half the
    thickness, of the four corners of the bounding box of the x and y
    coordinates of the positions moved out by 30: top-left, bottom-left,
    bottom-right, top-right; 8 vertices and 6 faces. For the one position
    (0, 0) at thickness 20 the corners are (-30, 30), (-30, -30), (30, -30)
    and (30, 30). *)
Theorem fallback_rectangle :
  (∀ (F : Type) `{!Arith F} (probe : Probe F) (ps : positions F)
     (p : F * F) (rest : list (F * F)) (t h : F) (a : bool)
     (g : ProbeOBJGenerator F),
     unusable (probe_planar_contour probe) →
     contact_positions probe = Some (position_rows ps) →
     ndim probe = position_ndim ps →
     position_xy ps = p :: rest →
     let x_lo := foldl minimum p.1 (fst <$> rest) in
     let x_hi := foldl maximum p.1 (fst <$> rest) in
     let y_lo := foldl minimum p.2 (snd <$> rest) in
     let y_hi := foldl maximum p.2 (snd <$> rest) in
     let corners :=
       [ (fsub x_lo (lit 30), fadd y_hi (lit 30));
         (fsub x_lo (lit 30), fsub y_lo (lit 30));
         (fadd x_hi (lit 30), fsub y_lo (lit 30));
         (fadd x_hi (lit 30), fadd y_hi (lit 30)) ] in
     ∃ g' : ProbeOBJGenerator F,
       generate_probe_mesh probe t h a g = Ok true g'
       ∧ vertices g'
         = corners ≫= column (fdiv (fneg t) (lit 2)) (fdiv t (lit 2))
       ∧ faces g' = prism_faces 0 4
       ∧ length (vertices g') = 8%nat
       ∧ length (faces g') = 6%nat)
  ∧ generate_probe_mesh lone_contact 20%float 2%float false new_generator
    = Ok true
        (mkGen
           [ (-30, 30, -10); (-30, 30, 10); (-30, -30, -10); (-30, -30, 10);
             (30, -30, -10); (30, -30, 10); (30, 30, -10); (30, 30, 10)
           ]%float
           [ [7; 5; 3; 1]; [2; 4; 6; 8];
             [1; 3; 4; 2]; [3; 5; 6; 4]; [5; 7; 8; 6]; [7; 1; 2; 8] ]
           8).
Proof.
  split; [|by vm_compute].
  intros F ? probe ps p rest t h a g Hc Hpos Hdim Hxy. cbv zeta.
  eexists. split; [by eapply mesh_of_positions|].
  cbn [vertices faces]. by repeat split.
Qed.

Lemma fallback_rectangle_witness :
  ∃ g' : ProbeOBJGenerator float,
    generate_probe_mesh
      (mkProbe (Some [ [0; 0]; [0; 10] ]%float)
               (Some [ [1; 2; 5]; [-3; 4; 5] ]%float) 3 None None None)
      20%float 2%float true new_generator = Ok true g'
    ∧ vertices g'
      = [ (-33, 34, -10); (-33, 34, 10); (-33, -28, -10); (-33, -28, 10);
          (31, -28, -10); (31, -28, 10); (31, 34, -10); (31, 34, 10)
        ]%float.
Proof.
  destruct (proj1 fallback_rectangle float _
              (mkProbe (Some [ [0; 0]; [0; 10] ]%float)
                       (Some [ [1; 2; 5]; [-3; 4; 5] ]%float) 3 None None None)
              (Spatial [(1, 2, 5); (-3, 4, 5)]%float)
              (1, 2)%float [(-3, 4)%float] 20%float 2%float true
              new_generator)
    as (g' & Hrun & Hv & _); [cbn; lia|reflexivity|reflexivity|reflexivity|].
  exists g'. split; [exact Hrun|]. rewrite Hv. by vm_compute.
Defined.

(** ** Nothing to draw *)

(** C7. A probe with no usable contour and no contact position gets no
    mesh: [generate_probe_mesh] returns [False] and raises nothing, and so
    does [generate_probe_obj], which leaves every file as it was; the call
    for the next probe runs as if this one had not been made. *)
Theorem no_geometry_fails {F : Type} `{!Arith F} `{!Fmt F}
    (probe : Probe F) (t h : F) (a : bool) :
  unusable (probe_planar_contour probe) →
  contact_positions probe = None ∨ contact_positions probe = Some [] →
  (∀ g, generate_probe_mesh probe t h a g = Ok false new_generator)
  ∧ (∀ output_path fs,
       generate_probe_obj probe output_path t h a fs = Ok false fs)
  ∧ (∀ output_path (next : Probe F) next_path t' h' a' fs,
       (generate_probe_obj probe output_path t h a;;
        generate_probe_obj next next_path t' h' a') fs
       = generate_probe_obj next next_path t' h' a' fs).
Proof.
  intros Hc Hpos.
  assert (Hobj : ∀ output_path fs,
    generate_probe_obj probe output_path t h a fs = Ok false fs).
  { intros output_path fs. unfold generate_probe_obj.
    by rewrite (mesh_without_positions probe t h false new_generator Hc Hpos). }
  split; [intros g; by apply mesh_without_positions|].
  split; [exact Hobj|].
  intros. unfold mbind, M_bind, bind. by rewrite Hobj.
Qed.

Lemma no_geometry_fails_witness :
  generate_probe_mesh bare_probe 20%float 2%float false new_generator
  = Ok false new_generator.
Proof.
  apply (no_geometry_fails (Fmt0 := Build_Fmt float (λ _, ""%string))
           bare_probe 20%float 2%float false);
    [cbn; lia|by right].
Defined.

(** ** Contact geometry *)

Section Contacts.
Context {F : Type} `{!Arith F} `{!Trig F}.

Implicit Types (g : ProbeOBJGenerator F).

Lemma footprint_loop_rows (pts : list (F * F)) (zb zt : F) bs ts g :
  footprint_loop pts zb zt bs ts g =
  Ok (bs ++ (bottom (vertex_count g) <$> seq 0 (length pts)),
      ts ++ (top (vertex_count g) <$> seq 0 (length pts)))
     (mkGen (vertices g ++ (pts ≫= column zb zt)) (faces g)
            (vertex_count g + 2 * Z.of_nat (length pts))).
Proof.
  rewrite <- extrude_loop_rows. revert bs ts g.
  induction pts as [|[x y] pts IH]; intros bs ts g; [done|].
  cbn [footprint_loop fmap list_fmap extrude_loop].
  unfold mbind, M_bind, bind, row2, unpack2, ret, add_vertex.
  cbn [fst snd]. apply IH.
Qed.

(** A footprint turned into a prism. *)
Lemma footprint_prism (pts : list (F * F)) (zb zt : F) g :
  ('(bs, ts) ← footprint_loop pts zb zt [] [];
   create_faces_from_contour bs ts) g =
  Ok tt (mkGen (vertices g ++ (pts ≫= column zb zt))
               (faces g ++ prism_faces (vertex_count g) (length pts))
               (vertex_count g + 2 * Z.of_nat (length pts))).
Proof.
  unfold mbind at 1. unfold M_bind, bind.
  rewrite footprint_loop_rows. cbn [app].
  rewrite create_faces_indices. done.
Qed.

Lemma circular_contact_prism (x y z radius height : F) (n : nat) g :
  _add_circular_contact [x; y; z] radius height n g =
  Ok tt
    (mkGen
       (vertices g ++
        ((circle_point x y radius <$> even_angles n)
           ≫= column (fsub z (fdiv height (lit 2)))
                     (fadd z (fdiv height (lit 2)))))
       (faces g ++ prism_faces (vertex_count g) n)
       (vertex_count g + 2 * Z.of_nat n)).
Proof.
  unfold _add_circular_contact. unfold mbind at 1. unfold M_bind, bind.
  cbn [unpack3 ret].
  pose proof (footprint_prism (circle_point x y radius <$> even_angles n)
    (fsub z (fdiv height (lit 2))) (fadd z (fdiv height (lit 2))) g) as Hp.
  unfold even_angles in Hp |- *. rewrite !length_fmap, length_seq in Hp.
  exact Hp.
Qed.




End Contacts.

(** C9. A circular contact is the prism over 8 points of the circle, at the
    angles 0, 1, ..., 7 times an eighth of the full turn (the full turn
    itself is not among them), between the planes half the height below and
    above the centre: 16 vertices, bottom then top per point, and 10 faces,
    whatever the radius. One contact at the origin with radius 5 and
    height 2 makes a mesh of 16 vertices and 10 faces. *)
Theorem circular_contact :
  (∀ (F : Type) `{!Arith F} `{!Trig F} (x y z radius height : F)
     (g : ProbeOBJGenerator F),
     ∃ g' : ProbeOBJGenerator F,
       _add_circular_contact [x; y; z] radius height 8 g = Ok tt g'
       ∧ length (even_angles (F := F) 8) = 8%nat
       ∧ vertices g'
         = vertices g ++
           ((circle_point x y radius <$> even_angles 8)
              ≫= column (fsub z (fdiv height (lit 2)))
                        (fadd z (fdiv height (lit 2))))
       ∧ faces g' = faces g ++ prism_faces (vertex_count g) 8
       ∧ length (vertices g') = (length (vertices g) + 16)%nat
       ∧ length (faces g') = (length (faces g) + 10)%nat)
  ∧ ∃ g : ProbeOBJGenerator sym,
      add_contact_geometry (one_contact "circle" 5) (SLit 2) new_generator
        = Ok tt g
      ∧ length (vertices g) = 16%nat
      ∧ faces g
        = [ [15; 13; 11; 9; 7; 5; 3; 1]; [2; 4; 6; 8; 10; 12; 14; 16];
            [1; 3; 4; 2]; [3; 5; 6; 4]; [5; 7; 8; 6]; [7; 9; 10; 8];
            [9; 11; 12; 10]; [11; 13; 14; 12]; [13; 15; 16; 14];
            [15; 1; 2; 16] ].
Proof.
  split.
  - intros F ? ? x y z radius height g. eexists.
    split; [apply circular_contact_prism|].
    cbn [vertices faces vertex_count].
    split; [done|]. split; [done|]. split; [done|].
    rewrite !length_app, columns_length, prism_faces_length.
    split; [|done]. by rewrite length_fmap.
  - eexists. split; [by vm_compute|]. by split.
Qed.




(** ** The public entry points *)

(** C5. For both values of [add_contacts], and whatever the generator held
    before, [generate_probe_mesh] returns the same result and leaves the same
    mesh, and [generate_probe_obj] writes the same file; neither depends on
    the contact shapes, their parameters or the contact height; and a mesh
    that was generated is exactly the prism of the contour, or of the four
    corners of the fallback rectangle: no contact geometry is in it. *)
Theorem contacts_never_added {F : Type} `{!Arith F} `{!Fmt F}
    (probe : Probe F) (t h : F) (add_contacts : bool) :
  (∀ flag g g0,
     generate_probe_mesh probe t h add_contacts g
     = generate_probe_mesh probe t h flag g0)
  ∧ (∀ flag output_path fs,
       generate_probe_obj probe output_path t h add_contacts fs
       = generate_probe_obj probe output_path t h flag fs)
  ∧ (∀ shapes params h' g output_path fs,
       let probe' :=
         mkProbe (probe_planar_contour probe) (contact_positions probe)
                 (ndim probe) shapes params (model_name probe) in
       generate_probe_mesh probe' t h' add_contacts g
       = generate_probe_mesh probe t h add_contacts g
       ∧ generate_probe_obj probe' output_path t h' add_contacts fs
         = generate_probe_obj probe output_path t h add_contacts fs)
  ∧ (∀ g g',
       generate_probe_mesh probe t h add_contacts g = Ok true g' →
       ∃ pts : list (F * F),
         g' = mkGen (pts ≫= column (fdiv (fneg t) (lit 2)) (fdiv t (lit 2)))
                    (prism_faces 0 (length pts))
                    (2 * Z.of_nat (length pts))
         ∧ ((3 ≤ length pts)%nat
            ∧ probe_planar_contour probe = Some (row2 <$> pts)
            ∨ unusable (probe_planar_contour probe) ∧ length pts = 4%nat)).
Proof.
  split; [reflexivity|]. split; [reflexivity|].
  split; [intros; split; reflexivity|].
  intros g g'. apply mesh_success.
Qed.

(** ** Text *)

Section Text.

Implicit Types (s t u : string) (c : ascii).

Lemma append_nil_l t : "" +:+ t = t.
Proof. reflexivity. Qed.

Lemma append_cons c s t : String c s +:+ t = String c (s +:+ t).
Proof. reflexivity. Qed.

Lemma append_assoc s t u : (s +:+ t) +:+ u = s +:+ (t +:+ u).
Proof.
  induction s as [|c s IH]; [done|]. rewrite !append_cons. by f_equal.
Qed.

Lemma append_nil_r s : s +:+ "" = s.
Proof.
  induction s as [|c s IH]; [done|]. rewrite append_cons. by f_equal.
Qed.

Lemma without_app c s t :
  without c (s +:+ t) = without c s && without c t.
Proof.
  induction s as [|c' s IH]; [done|].
  rewrite append_cons. cbn [without]. rewrite IH.
  by destruct (Ascii.eqb c' c).
Qed.

Lemma split_on_app c s t :
  without c s = true →
  split_on c (s +:+ String c t) = s :: split_on c t.
Proof.
  induction s as [|c' s IH].
  - intros _. rewrite append_nil_l. cbn [split_on].
    by rewrite Ascii.eqb_refl.
  - rewrite append_cons. cbn [split_on without].
    destruct (Ascii.eqb c' c); [done|]. cbn [negb andb].
    intros Hs. by rewrite IH.
Qed.

Lemma split_on_without c s : without c s = true → split_on c s = [s].
Proof.
  induction s as [|c' s IH]; [done|]. cbn [split_on without].
  destruct (Ascii.eqb c' c); [done|]. cbn [negb andb].
  intros Hs. by rewrite IH.
Qed.

Lemma concat_empty_cons s (l : list string) :
  String.concat "" (s :: l) = s +:+ String.concat "" l.
Proof. destruct l; cbn [String.concat]; [by rewrite append_nil_r|done]. Qed.

(** Lines, each closed by a line feed, split back into themselves. *)
Lemma split_lines (lines : list string) (rest : string) :
  Forall (λ l, without line_feed l = true) lines →
  split_on line_feed
    (String.concat "" ((λ l, l +:+ nl) <$> lines) +:+ rest)
  = lines ++ split_on line_feed rest.
Proof.
  induction 1 as [|l lines Hl _ IH]; [done|].
  rewrite fmap_cons, concat_empty_cons, !append_assoc.
  unfold nl at 1. rewrite append_cons, append_nil_l.
  by rewrite split_on_app, IH.
Qed.

(** Words joined by one separator split back into themselves. *)
Lemma split_on_concat c (w : string) (ws : list string) :
  Forall (λ w, without c w = true) (w :: ws) →
  split_on c (String.concat (String c "") (w :: ws)) = w :: ws.
Proof.
  revert w. induction ws as [|w' ws IH]; intros w Hw.
  - cbn [String.concat]. apply split_on_without. by inversion Hw.
  - inversion Hw as [|?? Hc Hws]; subst.
    change (String.concat (String c "") (w :: w' :: ws))
      with (w +:+ (String c "" +:+ String.concat (String c "") (w' :: ws))).
    rewrite append_cons, append_nil_l. by rewrite split_on_app, IH.
Qed.

Lemma line_words_concat (ws : list string) :
  Forall (λ w, w ≠ "" ∧ without " " w = true) ws →
  line_words (String.concat " " ws) = ws.
Proof.
  intros Hws. unfold line_words. destruct ws as [|w ws]; [done|].
  rewrite split_on_concat by (eapply Forall_impl; [done|]; by intros ? [? ?]).
  induction Hws as [|w' ws' [Hw _] _ IH]; [done|].
  rewrite filter_cons_True by done. by f_equal.
Qed.

End Text.

(** ** Numerals *)

Section Numerals.

Implicit Types (c : ascii) (n z : Z).

Lemma uint_without c (d : Decimal.uint) :
  non_digit c = true → without c (NilEmpty.string_of_uint d) = true.
Proof.
  unfold non_digit. cbn [forallb]. rewrite !andb_true_iff.
  intros (H0 & H1 & H2 & H3 & H4 & H5 & H6 & H7 & H8 & H9 & _).
  induction d as [|d IH|d IH|d IH|d IH|d IH|d IH|d IH|d IH|d IH|d IH];
    cbn [NilEmpty.string_of_uint without]; [done|..];
    rewrite IH, andb_true_r; assumption.
Qed.

Lemma str_without c z :
  non_digit c = true → Ascii.eqb "-" c = false → without c (str z) = true.
Proof.
  intros Hc Hminus. unfold str.
  assert (Hu : ∀ d, without c (NilZero.string_of_uint d) = true).
  { intros d. pose proof (uint_without c d Hc) as Hd.
    destruct d; try exact Hd. cbn [NilZero.string_of_uint without].
    revert Hc. unfold non_digit. cbn [forallb]. rewrite !andb_true_iff.
    by intros [-> _]. }
  destruct z as [|p|p]; cbn [Z.to_int NilZero.string_of_int without];
    rewrite ?Hminus; cbn [negb andb]; apply Hu.
Qed.

Lemma str_nonempty z : str z ≠ "".
Proof.
  unfold str. destruct z as [|p|p]; cbn [Z.to_int NilZero.string_of_int];
    [done| |done].
  pose proof (Unsigned.to_uint_nonnil p) as Hp.
  by destruct (Pos.to_uint p).
Qed.

Lemma read_index_str z : read_index (str z) = Some z.
Proof.
  unfold read_index, str. rewrite NilZero.isi.
  - cbn. by rewrite DecimalZ.of_to.
  - destruct z as [|p|p]; cbn [Z.to_int]; [done| |done].
    intros [= Hp]. by apply (Unsigned.to_uint_nonnil p).
  - destruct z as [|p|p]; cbn [Z.to_int]; [done|done|].
    intros [= Hp]. by apply (Unsigned.to_uint_nonnil p).
Qed.

Lemma digit_cases n :
  0 ≤ n < 10 →
  digit n ∈ ["0"; "1"; "2"; "3"; "4"; "5"; "6"; "7"; "8"; "9"]%char.
Proof.
  intros Hn.
  assert (n = 0 ∨ n = 1 ∨ n = 2 ∨ n = 3 ∨ n = 4 ∨ n = 5 ∨ n = 6 ∨ n = 7
          ∨ n = 8 ∨ n = 9) as Hcases by lia.
  clear Hn.
  repeat (destruct Hcases as [Hcases|Hcases]; [subst n; by vm_compute; set_solver|]).
  subst n. vm_compute. set_solver.
Qed.

Lemma digit_other c n :
  0 ≤ n < 10 → non_digit c = true → Ascii.eqb (digit n) c = false.
Proof.
  intros Hn Hc. pose proof (digit_cases n Hn) as Hin.
  unfold non_digit in Hc. rewrite forallb_forall in Hc.
  apply list_elem_of_In, Hc in Hin. by apply negb_true_iff.
Qed.

Lemma digit_value n :
  0 ≤ n < 10 → Z.of_nat (nat_of_ascii (digit n)) - 48 = n.
Proof.
  intros Hn. unfold digit. rewrite nat_ascii_embedding by lia. lia.
Qed.

Lemma digits_without c (k : nat) n :
  non_digit c = true → without c (digits k n) = true.
Proof.
  intros Hc. revert n. induction k as [|k IH]; intros n; [done|].
  cbn [digits]. rewrite without_app, IH. cbn [without andb].
  rewrite digit_other; [done| |done]. apply Z.mod_pos_bound. lia.
Qed.

Lemma digits_length (k : nat) n : String.length (digits k n) = k.
Proof.
  revert n. induction k as [|k IH]; intros n; [done|].
  cbn [digits].
  assert (Happ : ∀ s t, String.length (s +:+ t)
                        = (String.length s + String.length t)%nat).
  { intros s t. induction s as [|c s IHs]; [done|].
    rewrite append_cons. cbn [String.length]. by rewrite IHs. }
  rewrite Happ, IH. cbn. lia.
Qed.

Lemma digits_value_digits (k : nat) n acc (rest : string) :
  digits_value acc (digits k n +:+ rest)
  = digits_value (acc * 10 ^ Z.of_nat k + n mod 10 ^ Z.of_nat k) rest.
Proof.
  revert n acc rest. induction k as [|k IH]; intros n acc rest.
  - cbn [digits]. rewrite append_nil_l. cbn [Z.of_nat].
    rewrite Z.pow_0_r, Z.mod_1_r. f_equal. lia.
  - cbn [digits]. rewrite append_assoc, append_cons, append_nil_l, IH.
    cbn [digits_value].
    assert (0 ≤ n mod 10 < 10) as Hd by (apply Z.mod_pos_bound; lia).
    rewrite digit_value by done.
    destruct (Z.leb_spec 0 (n mod 10)); [|lia].
    destruct (Z.leb_spec (n mod 10) 9); [|lia].
    cbn [andb]. f_equal.
    rewrite Nat2Z.inj_succ, Z.pow_succ_r by lia.
    rewrite (Z.rem_mul_r n 10 (10 ^ Z.of_nat k)) by lia. lia.
Qed.

End Numerals.

(** ** The numerals of binary64 coordinates *)

Section FloatNumerals.

Lemma append_nonempty_l (s t : string) : s ≠ "" → s +:+ t ≠ "".
Proof. by destruct s. Qed.

Lemma append_nonempty_r (s t : string) : t ≠ "" → s +:+ t ≠ "".
Proof. destruct s; [done|]. by rewrite append_cons. Qed.

Lemma fixed6_without (c : ascii) (n : Z) :
  non_digit c = true → Ascii.eqb "-" c = false → Ascii.eqb "." c = false →
  without c (fixed6 n) = true.
Proof.
  intros Hc Hminus Hpoint. unfold fixed6.
  rewrite !without_app, str_without, digits_without by done.
  cbn [without]. by rewrite Hpoint.
Qed.

Lemma fixed6_nonempty (n : Z) : fixed6 n ≠ "".
Proof. apply append_nonempty_l, str_nonempty. Qed.

Lemma sign_text_without (c : ascii) (negative : bool) :
  Ascii.eqb "-" c = false → without c (sign_text negative) = true.
Proof. intros Hc. destruct negative; cbn [sign_text without]; by rewrite ?Hc. Qed.

(** What [:.6f] prints for a float is a word. *)
Lemma float_fmt6_word (x : float) : word (float_fmt6 x).
Proof.
  unfold word, float_fmt6.
  destruct (Prim2SF x) as [negative|negative| |negative m e].
  - split; [apply append_nonempty_r, fixed6_nonempty|].
    by rewrite !without_app, !sign_text_without, !fixed6_without.
  - by destruct negative.
  - done.
  - split; [apply append_nonempty_r, fixed6_nonempty|].
    by rewrite !without_app, !sign_text_without, !fixed6_without.
Qed.

End FloatNumerals.

(** ** The text of a mesh, line by line *)

Section Lines.
Context {F : Type} `{!Fmt F}.

Implicit Types (self : ProbeOBJGenerator F) (v : vertex F).

Lemma concat_empty_app (l1 l2 : list string) :
  String.concat "" (l1 ++ l2) = String.concat "" l1 +:+ String.concat "" l2.
Proof.
  induction l1 as [|s l1 IH]; [done|].
  rewrite <- app_comm_cons, !concat_empty_cons, IH. by rewrite append_assoc.
Qed.

Lemma without_concat (c : ascii) (sep : string) (ws : list string) :
  without c sep = true → Forall (λ w, without c w = true) ws →
  without c (String.concat sep ws) = true.
Proof.
  intros Hsep. induction 1 as [|w ws Hw Hws IH]; [done|].
  destruct ws as [|w' ws]; [done|].
  change (String.concat sep (w :: w' :: ws))
    with (w +:+ (sep +:+ String.concat sep (w' :: ws))).
  by rewrite !without_app, Hw, Hsep, IH.
Qed.

Lemma vertex_line_text v : vertex_line v = vertex_text v +:+ nl.
Proof. unfold vertex_line, vertex_text. by rewrite !append_assoc. Qed.

Lemma face_line_text (face : list Z) : face_line face = face_text face +:+ nl.
Proof. unfold face_line, face_text. by rewrite !append_assoc. Qed.

(** The text is its lines, each closed by a line feed. *)
Lemma obj_text_lines self (probe_name : string) :
  obj_text self probe_name
  = String.concat ""
      ((λ l, l +:+ nl)
         <$> (header_lines self probe_name
              ++ (vertex_text <$> vertices self)
              ++ [""] ++ (face_text <$> faces self))).
Proof.
  unfold obj_text. rewrite !fmap_app, !concat_empty_app.
  rewrite <- !list_fmap_compose.
  assert ((λ l, l +:+ nl) ∘ vertex_text <$> vertices self
          = vertex_line <$> vertices self) as ->
    by (apply list_fmap_ext; intros; symmetry; apply vertex_line_text).
  assert ((λ l, l +:+ nl) ∘ face_text <$> faces self
          = face_line <$> faces self) as ->
    by (apply list_fmap_ext; intros; symmetry; apply face_line_text).
  unfold header, header_lines. cbn [fmap list_fmap].
  rewrite !concat_empty_cons. cbn [String.concat].
  by rewrite !append_assoc, !append_nil_l, ?append_nil_r.
Qed.

Hypothesis fmt6_word : ∀ x : F, word (fmt6 x).

Lemma vertex_text_clean v : without line_feed (vertex_text v) = true.
Proof.
  unfold vertex_text. rewrite !without_app.
  destruct (fmt6_word v.1.1) as (_ & _ & ->).
  destruct (fmt6_word v.1.2) as (_ & _ & ->).
  by destruct (fmt6_word v.2) as (_ & _ & ->).
Qed.

Lemma face_text_clean (face : list Z) :
  without line_feed (face_text face) = true.
Proof.
  unfold face_text. rewrite without_app, without_concat; [done|done|].
  apply Forall_fmap, Forall_forall. intros i _. by apply str_without.
Qed.

Lemma lines_clean self (probe_name : string) :
  without line_feed probe_name = true →
  Forall (λ l, without line_feed l = true)
    (header_lines self probe_name
     ++ (vertex_text <$> vertices self)
     ++ [""] ++ (face_text <$> faces self)).
Proof.
  intros Hname. repeat apply Forall_app_2.
  - unfold header_lines. repeat constructor.
    + by rewrite without_app, Hname.
    + by rewrite without_app, str_without.
    + by rewrite without_app, str_without.
  - apply Forall_fmap, Forall_forall. intros v _. apply vertex_text_clean.
  - by repeat constructor.
  - apply Forall_fmap, Forall_forall. intros f _. apply face_text_clean.
Qed.

Lemma obj_text_split self (probe_name : string) :
  without line_feed probe_name = true →
  split_on line_feed (obj_text self probe_name)
  = header_lines self probe_name
    ++ (vertex_text <$> vertices self)
    ++ [""] ++ (face_text <$> faces self) ++ [""].
Proof.
  intros Hname. rewrite obj_text_lines.
  rewrite <- (append_nil_r (String.concat "" _)).
  rewrite split_lines by by apply lines_clean.
  by rewrite <- !app_assoc.
Qed.

Lemma read_lines_app (l1 l2 : list string) vs1 fs1 vs2 fs2 :
  read_lines l1 = Some (vs1, fs1) → read_lines l2 = Some (vs2, fs2) →
  read_lines (l1 ++ l2) = Some (vs1 ++ vs2, fs1 ++ fs2).
Proof.
  intros H1 H2. revert vs1 fs1 H1.
  induction l1 as [|line l1 IH]; intros vs1 fs1 H1.
  - by injection H1 as <- <-.
  - rewrite <- app_comm_cons. cbn [read_lines] in H1 |- *.
    destruct (read_line line) as [e|]; [|done].
    cbn [mbind option_bind] in H1 |- *.
    destruct (read_lines l1) as [[vs fs]|]; [|done].
    rewrite (IH vs fs eq_refl). cbn [mbind option_bind] in H1 |- *.
    destruct e; by injection H1 as <- <-.
Qed.

Lemma read_header self (probe_name : string) :
  read_lines (header_lines self probe_name) = Some ([], []).
Proof. reflexivity. Qed.

Lemma vertex_text_read v : read_line (vertex_text v) = Some (Vertex (numerals v)).
Proof.
  unfold vertex_text.
  change (read_line (String "v" (String " "
            (String.concat " " [fmt6 v.1.1; fmt6 v.1.2; fmt6 v.2])))
          = Some (Vertex (numerals v))).
  cbn [read_line Ascii.eqb Bool.eqb andb]. rewrite line_words_concat; [done|].
  repeat constructor; by destruct (fmt6_word v.1.1), (fmt6_word v.1.2),
    (fmt6_word v.2); intuition.
Qed.

Lemma read_vertex_lines (vs : list (vertex F)) :
  read_lines (vertex_text <$> vs) = Some (numerals <$> vs, []).
Proof.
  induction vs as [|v vs IH]; [done|].
  cbn [fmap list_fmap read_lines]. rewrite vertex_text_read.
  cbn [mbind option_bind]. fold (fmap (M := list) vertex_text vs).
  by rewrite IH.
Qed.

Lemma face_text_read (face : list Z) :
  read_line (face_text face) = Some (Face face).
Proof.
  unfold face_text.
  change (read_line (String "f" (String " "
            (String.concat " " (str <$> face)))) = Some (Face face)).
  cbn [read_line Ascii.eqb Bool.eqb andb]. rewrite line_words_concat.
  - by rewrite (mapM_fmap_Some read_index str face read_index_str).
  - apply Forall_fmap, Forall_forall. intros i _. split; [apply str_nonempty|].
    by apply str_without.
Qed.

Lemma read_face_lines (fs : list (list Z)) :
  read_lines (face_text <$> fs) = Some ([], fs).
Proof.
  induction fs as [|f fs IH]; [done|].
  cbn [fmap list_fmap read_lines]. rewrite face_text_read.
  cbn [mbind option_bind]. fold (fmap (M := list) face_text fs).
  by rewrite IH.
Qed.

(** Reading the text of a mesh gives the numerals of its vertices and its
    faces, in their order. *)
Lemma read_obj_text self (probe_name : string) :
  without line_feed probe_name = true →
  read_obj (obj_text self probe_name)
  = Some (numerals <$> vertices self, faces self).
Proof.
  intros Hname. unfold read_obj. rewrite obj_text_split by done.
  rewrite (read_lines_app _ _ [] [] (numerals <$> vertices self) (faces self));
    [done|apply read_header|].
  rewrite (read_lines_app _ _ (numerals <$> vertices self) [] [] (faces self));
    [by rewrite app_nil_r|apply read_vertex_lines|].
  change ([""] ++ (face_text <$> faces self) ++ [""])
    with ("" :: ((face_text <$> faces self) ++ [""])).
  cbn [read_lines read_line mbind option_bind].
  rewrite (read_lines_app (face_text <$> faces self) [""]
             [] (faces self) [] [] (read_face_lines _) eq_refl).
  cbn [mbind option_bind add_entry app]. by rewrite app_nil_r.
Qed.

End Lines.

(** ** Six decimal places *)

Section Precision.

Lemma str_first (z : Z) :
  0 ≤ z → ∃ c s, str z = String c s ∧ Ascii.eqb c "-" = false.
Proof.
  intros Hz. unfold str. destruct z as [|p|p]; [by eexists _, _| |lia].
  cbn [Z.to_int NilZero.string_of_int].
  pose proof (Unsigned.to_uint_nonnil p) as Hp.
  destruct (Pos.to_uint p); [done|..]; by eexists _, _.
Qed.

(** Reading a numeral of millionths gives the millionths back. *)
Lemma read_fixed6 (negative : bool) (n : Z) :
  0 ≤ n →
  read_decimal (sign_text negative +:+ fixed6 n)
  = Some ((if negative then - n else n) # 1000000).
Proof.
  intros Hn.
  assert (Hw : 0 ≤ n / 1000000) by (apply Z.div_pos; lia).
  assert (Hbody : ∀ neg : bool,
    match split_on "." (fixed6 n) with
    | [whole; places] =>
        w ← read_index whole;
        guard (0 ≤ w);;
        p ← digits_value 0 places;
        let k := w * 10 ^ Z.of_nat (String.length places) + p in
        Some ((if neg then - k else k)
              # Z.to_pos (10 ^ Z.of_nat (String.length places)))
    | _ => None
    end = Some ((if neg then - n else n) # 1000000)).
  { intros neg. unfold fixed6.
    change (str (n / 1000000) +:+ "." +:+ digits 6 (n mod 1000000))
      with (str (n / 1000000) +:+ String "." (digits 6 (n mod 1000000))).
    rewrite split_on_app by by apply str_without.
    rewrite split_on_without by by apply digits_without.
    rewrite read_index_str. cbn [mbind option_bind].
    rewrite option_guard_True by done. cbn [mbind option_bind].
    rewrite <- (append_nil_r (digits 6 _)) at 1.
    rewrite digits_value_digits. cbn [digits_value mbind option_bind].
    rewrite digits_length.
    change (Z.of_nat 6) with 6. change (10 ^ 6) with 1000000.
    rewrite Z.mod_mod by lia.
    replace (n / 1000000 * 1000000 + (0 * 1000000 + n mod 1000000)) with n
      by (pose proof (Z.div_mod n 1000000); lia).
    done. }
  unfold read_decimal. destruct negative; cbn [sign_text].
  - rewrite append_cons, append_nil_l. cbn [Ascii.eqb Bool.eqb andb].
    apply (Hbody true).
  - rewrite append_nil_l.
    destruct (str_first (n / 1000000) Hw) as (c & s & Hstr & Hc).
    assert (Hfix : fixed6 n
                   = String c (s +:+ "." +:+ digits 6 (n mod 1000000)))
      by (unfold fixed6; by rewrite Hstr, append_cons).
    assert (Hsign : match fixed6 n with
                    | "" => false
                    | String c0 _ => Ascii.eqb c0 "-"
                    end = false) by (by rewrite Hfix).
    rewrite Hsign.
    replace (match fixed6 n with
             | "" => fixed6 n
             | String _ rest => if false then rest else fixed6 n
             end) with (fixed6 n) by (by destruct (fixed6 n)).
    apply (Hbody false).
Qed.

Lemma round_half_even_near (num den : Z) :
  0 < den →
  - den ≤ 2 * (round_half_even num den * den - num) ≤ den.
Proof.
  intros Hden. unfold round_half_even.
  pose proof (Z.div_mod num den) as Hdiv.
  pose proof (Z.mod_pos_bound num den Hden) as Hmod.
  destruct (Z.ltb_spec (2 * (num mod den)) den); [nia|].
  destruct (Z.ltb_spec den (2 * (num mod den))); [nia|].
  destruct (Z.even (num / den)); nia.
Qed.

Lemma round_half_even_nonneg (num den : Z) :
  0 ≤ num → 0 < den → 0 ≤ round_half_even num den.
Proof.
  intros Hnum Hden. unfold round_half_even.
  assert (0 ≤ num / den) by (apply Z.div_pos; lia).
  destruct (_ <? _); [done|]. destruct (_ <? _); [lia|].
  destruct (Z.even _); lia.
Qed.

Lemma millionths_nonneg (m : positive) (e : Z) : 0 ≤ millionths m e.
Proof.
  unfold millionths. destruct (Z.leb_spec 0 e).
  - assert (0 < 2 ^ e) by (apply Z.pow_pos_nonneg; lia). nia.
  - apply round_half_even_nonneg; [lia|]. apply Z.pow_pos_nonneg; lia.
Qed.

End Precision.

(** ** What [save_obj] writes *)

(** X1. When the probe name holds no line feed, the text [save_obj] writes
    consists of exactly these lines: the four comment lines of the header
    (name, generator, number of vertices, number of faces) and an empty
    line; one line per vertex, in the order of insertion, [v] and the three
    coordinates with 6 decimal places; an empty line; one line per face, in
    the order of insertion, [f] and the indices; the text ends with a line
    feed. *)
Theorem obj_text_layout (self : ProbeOBJGenerator float)
    (probe_name : string) :
  without line_feed probe_name = true →
  split_on line_feed (obj_text self probe_name)
  = header_lines self probe_name
    ++ (vertex_text <$> vertices self)
    ++ [""] ++ (face_text <$> faces self) ++ [""].
Proof. intros Hname. by apply obj_text_split; [exact float_fmt6_word|]. Qed.

Lemma obj_text_layout_witness :
  split_on line_feed (obj_text small_mesh "demo")
  = [ "# Probe: demo"; "# Generated by ProbeOBJGenerator";
      "# Vertices: 2"; "# Faces: 2"; "";
      "v 0.500000 -30.000000 0.007812"; "v 10.000000 0.000000 1.500000";
      ""; "f 1 2 2"; "f -4 0"; "" ].
Proof.
  rewrite (obj_text_layout small_mesh "demo" eq_refl). by vm_compute.
Defined.

(** X2. Reading back the text [save_obj] writes, line by line, gives the
    vertices in the order of insertion, each as the three numerals printed
    for its coordinates, and exactly the faces of the mesh, in their order;
    whatever the indices are, also negative or out of range. *)
Theorem obj_round_trip (self : ProbeOBJGenerator float)
    (probe_name : string) :
  without line_feed probe_name = true →
  read_obj (obj_text self probe_name)
  = Some (numerals <$> vertices self, faces self).
Proof. intros Hname. by apply read_obj_text; [exact float_fmt6_word|]. Qed.

Lemma obj_round_trip_witness :
  read_obj (obj_text small_mesh "demo")
  = Some ([ ["0.500000"; "-30.000000"; "0.007812"];
            ["10.000000"; "0.000000"; "1.500000"] ],
          [ [1; 2; 2]; [-4; 0] ]).
Proof.
  rewrite (obj_round_trip small_mesh "demo" eq_refl). by vm_compute.
Defined.

(** X3. The numeral printed for a finite coordinate stands for a number
    within half a millionth of the coordinate. *)
Theorem six_places_precision (x : float) (value : Q) :
  float_value x = Some value →
  ∃ q : Q, read_decimal (fmt6 x) = Some q
           ∧ (Qabs (q - value) <= 1 # 2000000)%Q.
Proof.
  unfold float_value. cbn [fmt6 float_fmt]. unfold float_fmt6.
  destruct (Prim2SF x) as [negative|negative| |negative m e]; try done.
  - intros [= <-]. eexists. split; [by apply read_fixed6|].
    by destruct negative.
  - intros [= <-]. eexists.
    split; [apply read_fixed6, millionths_nonneg|].
    apply Qabs_Qle_condition. unfold millionths.
    destruct (Z.leb_spec 0 e) as [He|He].
    + assert (0 < 2 ^ e) by (apply Z.pow_pos_nonneg; lia).
      unfold Qle, Qminus, Qplus, Qopp; cbn [Qnum Qden].
      destruct negative; split; nia.
    + assert (Hden : 0 < 2 ^ (- e)) by (apply Z.pow_pos_nonneg; lia).
      pose proof (round_half_even_near (Z.pos m * 1000000) (2 ^ (- e)) Hden)
        as Hnear.
      set (n := round_half_even (Z.pos m * 1000000) (2 ^ (- e))) in *.
      unfold Qle, Qminus, Qplus, Qopp; cbn [Qnum Qden].
      rewrite !Pos2Z.inj_mul, !Z2Pos.id by done.
      destruct negative; split; nia.
Qed.

Lemma six_places_precision_witness :
  ∃ q : Q, read_decimal (fmt6 0.0078125%float) = Some q
           ∧ (Qabs (q - (1 # 128)) <= 1 # 2000000)%Q.
Proof.
  destruct (six_places_precision 0.0078125%float
              (4503599627370496 # Z.to_pos (2 ^ 59)) eq_refl)
    as (q & Hq & Hnear).
  exists q. split; [exact Hq|].
  assert ((1 # 128) == (4503599627370496 # Z.to_pos (2 ^ 59)))%Q as ->
    by reflexivity.
  exact Hnear.
Defined.

(** ** From a probe to a file *)




(** ** What every call keeps *)

Section Invariants.
Context {F : Type} `{!Arith F}.

Implicit Types (g : ProbeOBJGenerator F).

Lemma after_bind {S A B} (c : M S A) (k : A → M S B) (s : S)
    (mid : A → S → Prop) (returned : B → S → Prop) (raised : S → Prop) :
  after (c s) mid raised →
  (∀ a s1, mid a s1 → after (k a s1) returned raised) →
  after ((c ≫= k) s) returned raised.
Proof.
  unfold mbind, M_bind, bind. destruct (c s) as [a s1|e s1]; cbn [after].
  - intros Hmid Hk. by apply Hk.
  - by intros Hraised _.
Qed.

Lemma after_weaken {S A} (o : outcome S A)
    (returned returned' : A → S → Prop) (raised raised' : S → Prop) :
  after o returned raised →
  (∀ a s, returned a s → returned' a s) →
  (∀ s, raised s → raised' s) →
  after o returned' raised'.
Proof. destruct o; cbn [after]; auto. Qed.

Lemma after_try_except {S A} (c : M S A) (a : A) (s : S) (kept : S → Prop) :
  after (c s) (λ _, kept) kept →
  after (try_except c (λ _, ret a) s) (λ _, kept) kept.
Proof. unfold try_except. by destruct (c s). Qed.

Lemma after_for_each {S A} (xs : list A) (body : A → M S unit) (s : S)
    (kept : S → Prop) :
  (∀ x s', kept s' → after (body x s') (λ _, kept) kept) →
  kept s → after (for_each xs body s) (λ _, kept) kept.
Proof.
  intros Hbody. revert s. induction xs as [|x xs IH]; intros s Hs; [done|].
  cbn [for_each]. eapply after_bind; [by apply Hbody|]. intros ? s1. apply IH.
Qed.

Lemma after_getitem {S A} (l : list A) (i : nat) (s : S) :
  after (getitem l i s) (λ a s', a ∈ l ∧ s' = s) (λ s', s' = s).
Proof.
  unfold getitem. destruct (l !! i) as [a|] eqn:Ha; cbn; [|done].
  split; [|done]. by eapply list_elem_of_lookup_2.
Qed.

Lemma grown_refl g : grown g g.
Proof. unfold grown. split; [done|lia]. Qed.

Lemma grown_trans g1 g2 g3 : grown g1 g2 → grown g2 g3 → grown g1 g3.
Proof.
  unfold grown. intros [Hp1 Hc1] [Hp2 Hc2]. split; [by etrans|lia].
Qed.

Lemma grown_counted g g' : grown g g' → counted g → counted g'.
Proof. unfold grown, counted. intros [_ Hc] Hg. lia. Qed.

Lemma grown_length g g' :
  grown g g' → (length (vertices g) ≤ length (vertices g'))%nat.
Proof. intros [Hp _]. by apply prefix_length. Qed.

Lemma grown_count g g' : grown g g' → vertex_count g ≤ vertex_count g'.
Proof. intros [Hp Hc]. apply prefix_length in Hp. lia. Qed.

Lemma add_vertex_grown (x y z : F) g :
  ∃ g', add_vertex x y z g = Ok (vertex_count g') g'
        ∧ grown g g' ∧ faces g' = faces g
        ∧ vertex_count g' = vertex_count g + 1
        ∧ vertices g' = vertices g ++ [(x, y, z)].
Proof.
  eexists. split; [reflexivity|]. cbn [vertices faces vertex_count].
  split; [|done]. split; [by apply prefix_app_r|].
  cbn [vertices vertex_count]. rewrite length_app. cbn [length]. lia.
Qed.

(** The loop of [extrude_contour], whatever the rows are: it only appends
    vertices, and the indices it returns beside those it was given are
    indices of vertices it appended. *)
Lemma extrude_loop_after (rows : list (list F)) (zb zt : F)
    (bs ts : list Z) g :
  after (extrude_loop rows zb zt bs ts g)
    (λ r g', grown g g' ∧ faces g' = faces g
             ∧ ∀ i, i ∈ r.1 ++ r.2 →
                 i ∈ bs ++ ts ∨ vertex_count g < i ≤ vertex_count g')
    (λ g', grown g g' ∧ faces g' = faces g).
Proof.
  revert bs ts g. induction rows as [|row rows IH]; intros bs ts g.
  - cbn. split; [apply grown_refl|]. split; [done|]. by left.
  - cbn [extrude_loop].
    destruct row as [|x [|y [|??]]];
      try (cbn; split; [apply grown_refl|done]).
    unfold mbind, M_bind, bind. cbn [unpack2 ret].
    destruct (add_vertex_grown x y zb g) as (g1 & Hr1 & Hg1 & Hf1 & Hc1 & _).
    rewrite Hr1.
    destruct (add_vertex_grown x y zt g1) as (g2 & Hr2 & Hg2 & Hf2 & Hc2 & _).
    rewrite Hr2.
    eapply after_weaken; [apply IH|..].
    + intros [bs' ts'] g' (Hg & Hf & Hin). cbn [fst snd] in *.
      pose proof (grown_count _ _ Hg1). pose proof (grown_count _ _ Hg2).
      pose proof (grown_count _ _ Hg).
      split; [eauto using grown_trans|].
      split; [congruence|]. intros i Hi.
      destruct (Hin i Hi) as [Hold|Hnew]; [|right; lia].
      rewrite !elem_of_app, !list_elem_of_singleton in Hold.
      rewrite elem_of_app.
      destruct Hold as [[Hb|Hb]|[Ht|Ht]];
        [by left; left|right; lia|by left; right|right; lia].
    + intros g' [Hg Hf]. split; [eauto using grown_trans|congruence].
Qed.

End Invariants.
